(** * Flat Finder: listing matching pipeline

    A shallow embedding of the matching pipeline sketched in
    [POC_Scope.md] (section "Real-Time Monitoring Technical Solution"):

    - [UserPreferenceEngine]: [listing_matches_preferences],
      [calculate_match_score], [find_matching_users];
    - [OptimizedMatcher]: [build_user_indexes], [get_candidate_users];
    - [UserNotificationSystem]: [notify_user_of_match];
    - the change detector in front of [GlobalListingMonitor].

    Python values are modelled as follows.  Database integers are [Z];
    nullable columns are [option]; Python's float arithmetic in the score
    is modelled by exact rational arithmetic on [Q] (all constants of the
    formula are rationals; rounding is not modelled); a [dict] is a [gmap],
    a [set] a [gset]; a raised [ValueError] is [None] in the [option]
    monad. *)

From Stdlib Require Import ZArith QArith Qminmax Lia Lqa.
From Stdlib Require Import Ascii String DecimalString DecimalZ DecimalPos.
From stdpp Require Import base option list gmap strings.

Local Open Scope Z_scope.

(** ** Python primitives used by the index keys *)

Module Py.

(** [str(n)] for an [int]. *)
Definition str_int (n : Z) : string := NilZero.string_of_int (Z.to_int n).

(** [str(x)] for a nullable integer: [None] prints as the word None. *)
Definition str_opt (x : option Z) : string :=
  match x with
  | Some n => str_int n
  | None => "None"%string
  end.

(** [int(s)]: a non-empty run of decimal digits with an optional leading
    minus sign; anything else raises [ValueError].  (Python also accepts
    surrounding blanks, a plus sign and underscores; the index keys never
    contain them.) *)
Definition int (s : string) : option Z :=
  Z.of_int <$> NilZero.int_of_string s.

(** [s.split(sep)] for a one-character separator: the pieces between the
    occurrences of [sep], one more than there are occurrences. *)
Fixpoint split (sep : ascii) (s : string) : list string :=
  match s with
  | EmptyString => [EmptyString]
  | String c s' =>
      if Ascii.eqb c sep then EmptyString :: split sep s'
      else match split sep s' with
           | piece :: rest => String c piece :: rest
           | [] => [String c EmptyString]
           end
  end.

(** Python truthiness of a nullable integer: [None] and [0] are falsy. *)
Definition truthy (x : option Z) : option Z :=
  match x with
  | Some n => if decide (n = 0) then None else Some n
  | None => None
  end.

End Py.

(** ** Data model *)

(** A row of the [listings] table, with the attributes the matcher reads.
    [rooms] is [decimal(2,1)]; the three amenity columns are nullable
    booleans. *)
Module Listing.
Record t := mk {
  external_id : string;
  price : Z;
  location : string;
  district : string;
  rooms : Q;
  size_sqm : option Z;
  pet_friendly : option bool;
  balcony : option bool;
  furnished : option bool;
}.
End Listing.

(** A row of [user_preferences], with the two district tiers and the
    [ideal_rooms] attribute that [calculate_match_score] reads. *)
Module Prefs.
Record t := mk {
  user_id : Z;
  price_min : option Z;
  price_max : option Z;
  ideal_price : option Z;
  preferred_districts : list string;
  top_preferred_districts : list string;
  acceptable_districts : list string;
  min_rooms : option Z;
  max_rooms : option Z;
  ideal_rooms : option Z;
  min_size_sqm : option Z;
  pet_friendly : option bool;
  balcony_required : option bool;
  furnished : option bool;
}.
End Prefs.

(** The user record read by the notification system. *)
Module User.
Record t := mk {
  id : Z;
  notification_methods : list string;
  auto_apply_enabled : bool;
  auto_apply_threshold : Z;
}.
End User.

(** An entry of the list returned by [find_matching_users]. *)
Record Match := mkMatch {
  match_user_id : Z;
  match_preferences : Prefs.t;
  match_score : Q;
}.

(** ** UserPreferenceEngine *)

(** The engine object [self], as far as the matcher reads it: the five
    helper methods that [listing_matches_preferences] and
    [calculate_match_score] call and that the sketch defines nowhere.
    [count_amenity_matches] returns a count, hence a natural number. *)
Record UserPreferenceEngine := mkEngine {
  price_in_range : Z → option Z → option Z → bool;
  location_matches : string → list string → bool;
  size_matches : Q → option Z → Prefs.t → bool;
  additional_criteria_match : Listing.t → Prefs.t → bool;
  count_amenity_matches : Listing.t → Prefs.t → nat;
}.

(** [listing_matches_preferences]: the four checks in order, each one
    returning [False] at once when it fails. *)
Definition listing_matches_preferences (self : UserPreferenceEngine)
    (listing : Listing.t) (preferences : Prefs.t) : bool :=
  if negb (price_in_range self (Listing.price listing)
             (Prefs.price_min preferences) (Prefs.price_max preferences))
  then false
  else if negb (location_matches self (Listing.location listing)
                  (Prefs.preferred_districts preferences))
  then false
  else if negb (size_matches self (Listing.rooms listing)
                  (Listing.size_sqm listing) preferences)
  then false
  else if negb (additional_criteria_match self listing preferences)
  then false
  else true.

(** The four blocks of [calculate_match_score], each as the update it makes
    to the running [score]. *)

(** [if preferences.ideal_price: ... score += price_score * 0.3] *)
Definition add_price_preference (listing : Listing.t) (preferences : Prefs.t) (score : Q) : Q :=
  match Py.truthy (Prefs.ideal_price preferences) with
  | Some ideal_price =>
      let price_diff := Z.abs (Listing.price listing - ideal_price) in
      let price_score :=
        Qmax 0 (100 - (inject_Z price_diff / inject_Z ideal_price * 100)) in
      (score + price_score * (3 # 10))%Q
  | None => score
  end.

(** [if district in top_preferred_districts: score += 30
     elif district in acceptable_districts: score += 15] *)
Definition add_location_preference (listing : Listing.t) (preferences : Prefs.t) (score : Q) : Q :=
  if bool_decide (Listing.district listing ∈ Prefs.top_preferred_districts preferences)
  then (score + 30)%Q
  else if bool_decide (Listing.district listing ∈ Prefs.acceptable_districts preferences)
  then (score + 15)%Q
  else score.

(** [if preferences.ideal_rooms and listing.rooms == preferences.ideal_rooms:
     score += 20] *)
Definition add_size_preference (listing : Listing.t) (preferences : Prefs.t) (score : Q) : Q :=
  match Py.truthy (Prefs.ideal_rooms preferences) with
  | Some ideal_rooms =>
      if Qeq_bool (Listing.rooms listing) (inject_Z ideal_rooms)
      then (score + 20)%Q
      else score
  | None => score
  end.

(** [amenity_matches = self.count_amenity_matches(listing, preferences)
     score += amenity_matches * 5] *)
Definition add_amenities (self : UserPreferenceEngine)
    (listing : Listing.t) (preferences : Prefs.t) (score : Q) : Q :=
  let amenity_matches := count_amenity_matches self listing preferences in
  (score + inject_Z (Z.of_nat amenity_matches) * 5)%Q.

(** [calculate_match_score]: [score = 0], the four blocks, then
    [return min(100, score)]. *)
Definition calculate_match_score (self : UserPreferenceEngine)
    (listing : Listing.t) (preferences : Prefs.t) : Q :=
  let score := 0%Q in
  let score := add_price_preference listing preferences score in
  let score := add_location_preference listing preferences score in
  let score := add_size_preference listing preferences score in
  let score := add_amenities self listing preferences score in
  Qmin 100 score.

(** The body of the loop of [find_matching_users] for one
    [(user_id, preferences)] item: an entry with its score when the listing
    matches, nothing otherwise (the score is then not computed). *)
Definition match_user (self : UserPreferenceEngine)
    (listing : Listing.t) (item : Z * Prefs.t) : option Match :=
  let '(user_id, preferences) := item in
  if listing_matches_preferences self listing preferences
  then Some {| match_user_id := user_id;
               match_preferences := preferences;
               match_score := calculate_match_score self listing preferences |}
  else None.

(** [find_matching_users], over the items of the [user_preferences]
    dictionary in their order. *)
Definition find_matching_users (self : UserPreferenceEngine)
    (listing : Listing.t) (user_preferences : list (Z * Prefs.t)) : list Match :=
  omap (match_user self listing) user_preferences.

(** *** The helper methods as the spec describes them *)

Module SpecModel.

(** Modelled from the spec: the method [price_in_range] of
    [UserPreferenceEngine] is called by [listing_matches_preferences] and
    defined nowhere.  The spec's hard filter is "price outside [min,max]";
    a bound that is not set leaves its side open. *)
Definition price_in_range (price : Z) (price_min price_max : option Z) : bool :=
  from_option (λ lo, bool_decide (lo ≤ price)) true price_min
  && from_option (λ hi, bool_decide (price ≤ hi)) true price_max.

(** Modelled from the spec: the method [size_matches] is defined nowhere.
    The spec's hard filters are "rooms below min_rooms or above max_rooms
    when both set; size below min_size_sqm". *)
Definition size_matches (rooms : Q) (size_sqm : option Z) (preferences : Prefs.t) : bool :=
  match Prefs.min_rooms preferences, Prefs.max_rooms preferences with
  | Some lo, Some hi => Qle_bool (inject_Z lo) rooms && Qle_bool rooms (inject_Z hi)
  | _, _ => true
  end
  && match Prefs.min_size_sqm preferences, size_sqm with
     | Some least, Some size => bool_decide (least ≤ size)
     | _, _ => true
     end.

(** One tri-state amenity: excluded only when the preference requires a
    value and the listing states the opposite one. *)
Definition amenity_compatible (required stated : option bool) : bool :=
  match required, stated with
  | Some r, Some s => Bool.eqb r s
  | _, _ => true
  end.

(** Modelled from the spec: the method [additional_criteria_match] is
    defined nowhere.  The spec's hard filter is "any amenity where
    preference requires true/false and listing states the opposite
    (unspecified on either side never excludes)", over the amenities
    pet-friendly, balcony and furnished. *)
Definition additional_criteria_match (listing : Listing.t) (preferences : Prefs.t) : bool :=
  amenity_compatible (Prefs.pet_friendly preferences) (Listing.pet_friendly listing)
  && amenity_compatible (Prefs.balcony_required preferences) (Listing.balcony listing)
  && amenity_compatible (Prefs.furnished preferences) (Listing.furnished listing).

(** One tri-state amenity counts as a satisfied match when the preference
    names a value and the listing states that same value. *)
Definition amenity_satisfied (wanted stated : option bool) : bool :=
  match wanted, stated with
  | Some w, Some s => Bool.eqb w s
  | _, _ => false
  end.

(** Modelled from the spec: the method [count_amenity_matches] is defined
    nowhere.  The spec's bonus is per "satisfied optional amenity match",
    over the amenities pet-friendly, balcony and furnished. *)
Definition count_amenity_matches (listing : Listing.t) (preferences : Prefs.t) : nat :=
  Nat.b2n (amenity_satisfied (Prefs.pet_friendly preferences) (Listing.pet_friendly listing))
  + Nat.b2n (amenity_satisfied (Prefs.balcony_required preferences) (Listing.balcony listing))
  + Nat.b2n (amenity_satisfied (Prefs.furnished preferences) (Listing.furnished listing)).

End SpecModel.

(** The engine whose helper methods are those of the spec.  The spec names
    no location check, so [location_matches] stays a parameter. *)
Definition spec_engine (location_matches : string → list string → bool)
    : UserPreferenceEngine :=
  {| price_in_range := SpecModel.price_in_range;
     location_matches := location_matches;
     size_matches := SpecModel.size_matches;
     additional_criteria_match := SpecModel.additional_criteria_match;
     count_amenity_matches := SpecModel.count_amenity_matches |}.

(** The engine [self] with its location check replaced. *)
Definition with_location_check (location_matches : string → list string → bool)
    (self : UserPreferenceEngine) : UserPreferenceEngine :=
  {| price_in_range := price_in_range self;
     location_matches := location_matches;
     size_matches := size_matches self;
     additional_criteria_match := additional_criteria_match self;
     count_amenity_matches := count_amenity_matches self |}.

(** ** OptimizedMatcher *)

(** The two indexes: [price_index] maps the key [f"{price_min}-{price_max}"]
    to user ids, [district_index] maps a district to user ids. *)
Record Indexes := mkIndexes {
  price_index : gmap string (list Z);
  district_index : gmap string (list Z);
}.

(** [index[key].append(user_id)] on a [defaultdict(list)]. *)
Definition index_append (key : string) (user_id : Z)
    (index : gmap string (list Z)) : gmap string (list Z) :=
  <[key := default [] (index !! key) ++ [user_id]]> index.

(** The key under which a user is filed in [price_index]. *)
Definition price_key (user : Prefs.t) : string :=
  (Py.str_opt (Prefs.price_min user) +:+ "-" +:+ Py.str_opt (Prefs.price_max user))%string.

(** One round of the loop of [build_user_indexes]. *)
Definition index_user (indexes : Indexes) (user : Prefs.t) : Indexes :=
  {| price_index :=
       index_append (price_key user) (Prefs.user_id user) (price_index indexes);
     district_index :=
       foldl (λ index district, index_append district (Prefs.user_id user) index)
         (district_index indexes) (Prefs.preferred_districts user) |}.

(** [build_user_indexes]: both indexes are cleared, then every active user
    is filed. *)
Definition build_user_indexes (users : list Prefs.t) : Indexes :=
  foldl index_user {| price_index := ∅; district_index := ∅ |} users.

(** [min_price, max_price = map(int, price_range.split('-'))]: exactly two
    pieces, each an integer literal; [ValueError] otherwise. *)
Definition parse_price_range (price_range : string) : option (Z * Z) :=
  match Py.split "-" price_range with
  | [lo; hi] =>
      min_price ← Py.int lo;
      max_price ← Py.int hi;
      Some (min_price, max_price)
  | _ => None
  end.

(** The first loop of [get_candidate_users], over the items of
    [price_index]. *)
Fixpoint scan_price_index (price : Z) (items : list (string * list Z))
    (candidate_users : gset Z) : option (gset Z) :=
  match items with
  | [] => Some candidate_users
  | (price_range, user_ids) :: rest =>
      '(min_price, max_price) ← parse_price_range price_range;
      scan_price_index price rest
        (if bool_decide (min_price ≤ price ≤ max_price)
         then candidate_users ∪ list_to_set user_ids
         else candidate_users)
  end.

(** [get_candidate_users]: the users found through the price index, then
    those filed under the listing's district. *)
Definition get_candidate_users (indexes : Indexes) (listing : Listing.t) : option (list Z) :=
  candidate_users ←
    scan_price_index (Listing.price listing) (map_to_list (price_index indexes)) ∅;
  let candidate_users :=
    match district_index indexes !! Listing.district listing with
    | Some user_ids => candidate_users ∪ list_to_set user_ids
    | None => candidate_users
    end in
  Some (elements candidate_users).

(** ** UserNotificationSystem *)

(** The calls [notify_user_of_match] makes to its collaborators, which are
    taken to accept every call. *)
Inductive Intent :=
  | send_email_notification
  | send_push_notification
  | send_sms_notification
  | trigger_auto_application.

#[global] Instance Intent_eq_dec : EqDecision Intent.
Proof. solve_decision. Defined.

(** [notify_user_of_match]: the notification tasks gathered in the order
    email, push, sms, then the automatic application. *)
Definition notify_user_of_match (user : User.t) (match_score : Q) : list Intent :=
  let notification_tasks := [] in
  let notification_tasks :=
    if bool_decide ("email"%string ∈ User.notification_methods user)
    then notification_tasks ++ [send_email_notification]
    else notification_tasks in
  let notification_tasks :=
    if bool_decide ("push"%string ∈ User.notification_methods user)
    then notification_tasks ++ [send_push_notification]
    else notification_tasks in
  let notification_tasks :=
    if bool_decide ("sms"%string ∈ User.notification_methods user)
       && negb (Qle_bool match_score 80)
    then notification_tasks ++ [send_sms_notification]
    else notification_tasks in
  if User.auto_apply_enabled user
     && Qle_bool (inject_Z (User.auto_apply_threshold user)) match_score
  then notification_tasks ++ [trigger_auto_application]
  else notification_tasks.

(** An intent that notifies the user, on any channel. *)
Definition is_notification (intent : Intent) : bool :=
  match intent with
  | trigger_auto_application => false
  | _ => true
  end.

(** ** Change detector *)

Section ChangeDetector.

(** The second-stage content hash over (price, rooms, size, district). *)
Context {Hash : Type} `{EqDecision Hash}.
Variable content_hash : Z * Q * option Z * string → Hash.

(** The content hash of a listing. *)
Definition listing_hash (listing : Listing.t) : Hash :=
  content_hash (Listing.price listing, Listing.rooms listing,
                Listing.size_sqm listing, Listing.district listing).

(** What the detector hands on for a listing of the batch. *)
Inductive Emission :=
  | emit_new (listing : Listing.t)
  | emit_update (listing : Listing.t).



(** Modelled from the spec: the change detector ([scan_for_new_listings] of
    [GlobalListingMonitor], [filter_new_listings] of the change detector
    module) is not part of the sources.  "Identity key = external_id; a
    second-stage content hash (price, rooms, size, district) detects changed
    vs duplicate: unchanged records are dropped silently, changed records
    are re-emitted as updates (not new-insert events)."  [seen_listings]
    maps each external id seen so far to the content hash it was last seen
    with. *)
Definition detect_one (seen_listings : gmap string Hash) (listing : Listing.t)
    : gmap string Hash * option Emission :=
  match seen_listings !! Listing.external_id listing with
  | None =>
      (<[Listing.external_id listing := listing_hash listing]> seen_listings,
       Some (emit_new listing))
  | Some seen_hash =>
      if decide (seen_hash = listing_hash listing)
      then (seen_listings, None)
      else (<[Listing.external_id listing := listing_hash listing]> seen_listings,
            Some (emit_update listing))
  end.

(** Modelled from the spec: [detectNew(batch)], the listings of the batch
    taken one after the other against the same store. *)
Fixpoint detect_new (seen_listings : gmap string Hash) (batch : list Listing.t)
    : gmap string Hash * list Emission :=
  match batch with
  | [] => (seen_listings, [])
  | listing :: rest =>
      let '(seen_listings, emission) := detect_one seen_listings listing in
      let '(seen_listings, emissions) := detect_new seen_listings rest in
      (seen_listings, option_list emission ++ emissions)
  end.


End ChangeDetector.

(** ** Definitions used to state the properties *)

(** Whether the character [c] occurs in [s]. *)
Fixpoint occurs (c : ascii) (s : string) : bool :=
  match s with
  | EmptyString => false
  | String c' s' => Ascii.eqb c' c || occurs c s'
  end.

(** The bounds of a user are usable as an index key: both set, neither
    negative. *)
Definition key_parses (user : Prefs.t) : Prop :=
  ∃ lo hi, Prefs.price_min user = Some lo ∧ Prefs.price_max user = Some hi
           ∧ 0 ≤ lo ∧ 0 ≤ hi.

(** A location check of the kind the call site names: the listing's
    location is one of the user's preferred districts. *)
Definition location_is_preferred (location : string) (preferred_districts : list string) : bool :=
  bool_decide (location ∈ preferred_districts).

(** A location check that accepts everything. *)
Definition any_location (location : string) (preferred_districts : list string) : bool :=
  true.

(** A content hash for the examples: the hashed tuple itself, its rooms
    field in tenths. *)
Definition tuple_hash (content : Z * Q * option Z * string) : Z * Z * option Z * string :=
  let '(price, rooms, size, district) := content in
  (price, (Qnum rooms * 10) `div` Z.pos (Qden rooms), size, district).

(** ** Scenario data *)

(** The listing of the spec's scenario: price 1000, two rooms, in Mitte;
    nothing else is stated. *)
Definition listing_mitte : Listing.t :=
  {| Listing.external_id := "X123"; Listing.price := 1000;
     Listing.location := "Mitte"; Listing.district := "Mitte";
     Listing.rooms := 2; Listing.size_sqm := None;
     Listing.pet_friendly := None; Listing.balcony := None;
     Listing.furnished := None |}.

(** The same listing in a district no preference below names. *)
Definition listing_spandau : Listing.t :=
  {| Listing.external_id := "X124"; Listing.price := 1000;
     Listing.location := "Spandau"; Listing.district := "Spandau";
     Listing.rooms := 2; Listing.size_sqm := None;
     Listing.pet_friendly := None; Listing.balcony := None;
     Listing.furnished := None |}.

(** The Mitte listing stating all three amenities. *)
Definition listing_mitte_with_amenities : Listing.t :=
  {| Listing.external_id := "X123"; Listing.price := 1000;
     Listing.location := "Mitte"; Listing.district := "Mitte";
     Listing.rooms := 2; Listing.size_sqm := None;
     Listing.pet_friendly := Some false; Listing.balcony := Some true;
     Listing.furnished := Some false |}.

(** The Mitte listing seen again at a new price. *)
Definition listing_mitte_repriced : Listing.t :=
  {| Listing.external_id := "X123"; Listing.price := 950;
     Listing.location := "Mitte"; Listing.district := "Mitte";
     Listing.rooms := 2; Listing.size_sqm := None;
     Listing.pet_friendly := None; Listing.balcony := None;
     Listing.furnished := None |}.

(** Preference A: price 900-1100, ideal price 1000, Mitte top-preferred,
    ideal rooms 2. *)
Definition preference_A : Prefs.t :=
  {| Prefs.user_id := 1;
     Prefs.price_min := Some 900; Prefs.price_max := Some 1100;
     Prefs.ideal_price := Some 1000;
     Prefs.preferred_districts := ["Mitte"%string];
     Prefs.top_preferred_districts := ["Mitte"%string];
     Prefs.acceptable_districts := [];
     Prefs.min_rooms := None; Prefs.max_rooms := None;
     Prefs.ideal_rooms := Some 2; Prefs.min_size_sqm := None;
     Prefs.pet_friendly := None; Prefs.balcony_required := None;
     Prefs.furnished := None |}.

(** Preference A with the ideal price left out. *)
Definition preference_A_no_ideal : Prefs.t :=
  {| Prefs.user_id := 1;
     Prefs.price_min := Some 900; Prefs.price_max := Some 1100;
     Prefs.ideal_price := None;
     Prefs.preferred_districts := ["Mitte"%string];
     Prefs.top_preferred_districts := ["Mitte"%string];
     Prefs.acceptable_districts := [];
     Prefs.min_rooms := None; Prefs.max_rooms := None;
     Prefs.ideal_rooms := Some 2; Prefs.min_size_sqm := None;
     Prefs.pet_friendly := None; Prefs.balcony_required := None;
     Prefs.furnished := None |}.

(** Preference B: price 1200-1500, nothing else. *)
Definition preference_B : Prefs.t :=
  {| Prefs.user_id := 2;
     Prefs.price_min := Some 1200; Prefs.price_max := Some 1500;
     Prefs.ideal_price := None;
     Prefs.preferred_districts := [];
     Prefs.top_preferred_districts := [];
     Prefs.acceptable_districts := [];
     Prefs.min_rooms := None; Prefs.max_rooms := None;
     Prefs.ideal_rooms := None; Prefs.min_size_sqm := None;
     Prefs.pet_friendly := None; Prefs.balcony_required := None;
     Prefs.furnished := None |}.

(** A preference with no lower price bound. *)
Definition preference_no_min : Prefs.t :=
  {| Prefs.user_id := 3;
     Prefs.price_min := None; Prefs.price_max := Some 1500;
     Prefs.ideal_price := None;
     Prefs.preferred_districts := [];
     Prefs.top_preferred_districts := [];
     Prefs.acceptable_districts := [];
     Prefs.min_rooms := None; Prefs.max_rooms := None;
     Prefs.ideal_rooms := None; Prefs.min_size_sqm := None;
     Prefs.pet_friendly := None; Prefs.balcony_required := None;
     Prefs.furnished := None |}.

(** A preference with a negative lower price bound. *)
Definition preference_negative_min : Prefs.t :=
  {| Prefs.user_id := 4;
     Prefs.price_min := Some (-1); Prefs.price_max := Some 1500;
     Prefs.ideal_price := None;
     Prefs.preferred_districts := [];
     Prefs.top_preferred_districts := [];
     Prefs.acceptable_districts := [];
     Prefs.min_rooms := None; Prefs.max_rooms := None;
     Prefs.ideal_rooms := None; Prefs.min_size_sqm := None;
     Prefs.pet_friendly := None; Prefs.balcony_required := None;
     Prefs.furnished := None |}.

(** A user reachable by SMS only, with automatic application at the default
    threshold. *)
Definition sms_only_user : User.t :=
  {| User.id := 7; User.notification_methods := ["sms"%string];
     User.auto_apply_enabled := true; User.auto_apply_threshold := 80 |}.

(** A user with the default channel set and automatic application at the
    default threshold. *)
Definition email_user : User.t :=
  {| User.id := 8; User.notification_methods := ["email"%string];
     User.auto_apply_enabled := true; User.auto_apply_threshold := 80 |}.

(** A user with every channel. *)
Definition all_channels_user : User.t :=
  {| User.id := 9;
     User.notification_methods := ["email"; "push"; "sms"]%string;
     User.auto_apply_enabled := false; User.auto_apply_threshold := 80 |}.

(** ** Further definitions used to state properties *)

(** What a [defaultdict(list)] holds under a key after the ids [added]
    were appended to what it held before: no entry when there was none and
    nothing was appended. *)
Definition appended (before : option (list Z)) (added : list Z) : option (list Z) :=
  match before, added with
  | None, [] => None
  | _, _ => Some (default [] before ++ added)
  end.

(** The ids [build_user_indexes] files under the price key [key]: one per
    user with that key, in the order of the users. *)
Definition filed_under_key (key : string) (users : list Prefs.t) : list Z :=
  Prefs.user_id <$> filter (λ user, price_key user = key) users.

(** The ids one user contributes to the entry of [district]: its id, once
    for every time the district stands in its preferred districts. *)
Definition listed_district (district : string) (user : Prefs.t) : list Z :=
  (λ _, Prefs.user_id user) <$> filter (λ d, d = district) (Prefs.preferred_districts user).

(** The ids [build_user_indexes] files under [district]. *)
Definition filed_under_district (district : string) (users : list Prefs.t) : list Z :=
  users ≫= listed_district district.

(** A user whose price range holds [price]. *)
Definition price_in_bounds (price : Z) (user : Prefs.t) : Prop :=
  ∃ lo hi, Prefs.price_min user = Some lo ∧ Prefs.price_max user = Some hi
           ∧ lo ≤ price ≤ hi.

(** [a / b] on Python integers: true division, which raises
    [ZeroDivisionError] (here [None]) when [b] is 0. *)
Definition truediv (a b : Z) : option Q :=
  if decide (b = 0) then None else Some (inject_Z a / inject_Z b)%Q.

(** The price block of [calculate_match_score] with the division as Python
    performs it: [None] if it raises [ZeroDivisionError]. *)
Definition add_price_preference_checked
    (listing : Listing.t) (preferences : Prefs.t) (score : Q) : option Q :=
  match Py.truthy (Prefs.ideal_price preferences) with
  | Some ideal_price =>
      let price_diff := Z.abs (Listing.price listing - ideal_price) in
      quotient ← truediv price_diff ideal_price;
      let price_score := Qmax 0 (100 - (quotient * 100)) in
      Some (score + price_score * (3 # 10))%Q
  | None => Some score
  end.

(** A preference whose ideal price is negative. *)
Definition preference_negative_ideal : Prefs.t :=
  {| Prefs.user_id := 6;
     Prefs.price_min := None; Prefs.price_max := None;
     Prefs.ideal_price := Some (-1000);
     Prefs.preferred_districts := [];
     Prefs.top_preferred_districts := [];
     Prefs.acceptable_districts := [];
     Prefs.min_rooms := None; Prefs.max_rooms := None;
     Prefs.ideal_rooms := None; Prefs.min_size_sqm := None;
     Prefs.pet_friendly := None; Prefs.balcony_required := None;
     Prefs.furnished := None |}.

(** Every call [notify_user_of_match] can make, in the order in which it
    makes them. *)
Definition all_intents : list Intent :=
  [send_email_notification; send_push_notification; send_sms_notification;
   trigger_auto_application].

(** A user with every channel named twice and automatic application. *)
Definition repeated_channels_user : User.t :=
  {| User.id := 10;
     User.notification_methods := ["sms"; "email"; "sms"; "push"; "email"; "fax"]%string;
     User.auto_apply_enabled := true; User.auto_apply_threshold := 60 |}.

(** ** The Redis caches *)

(** A Redis store as the two caches use it: under each key a value and the
    time, in seconds, at which the key expires.  [get] returns nothing for
    a key that is missing or has expired; [setex] stores a value that
    expires [seconds] after the time of the call. *)
Definition redis_get (now : Z) (redis : gmap string (string * Z)) (key : string)
    : option string :=
  match redis !! key with
  | Some (value, expires_at) => if decide (now < expires_at) then Some value else None
  | None => None
  end.

Definition redis_setex (now : Z) (key : string) (seconds : Z) (value : string)
    (redis : gmap string (string * Z)) : gmap string (string * Z) :=
  <[key := (value, now + seconds)]> redis.

Section UserManager.

(** [json.dumps] and [json.loads] on the collection of preferences that the
    database returns. *)
Context {Preferences : Type}.
Variable dumps : Preferences → string.
Variable loads : string → Preferences.

(** [UserManager.get_active_user_preferences] at time [now], the database
    holding [db_prefs]: the cached text if there is one (an empty text is
    falsy), the database otherwise, which is then cached for 5 minutes. *)
Definition get_active_user_preferences (now : Z) (db_prefs : Preferences)
    (cache : gmap string (string * Z)) : Preferences * gmap string (string * Z) :=
  let from_db :=
    let prefs := db_prefs in
    (prefs, redis_setex now "active_user_preferences" 300 (dumps prefs) cache) in
  match redis_get now cache "active_user_preferences" with
  | Some cached_prefs =>
      if decide (cached_prefs = EmptyString) then from_db
      else (loads cached_prefs, cache)
  | None => from_db
  end.

End UserManager.

Section MatchingCache.

(** [json.dumps] on a user and on the aggregate, and the method
    [aggregate_preferences], which the sketch does not define. *)
Context {Aggregated : Type}.
Variable dumps_user : Prefs.t → string.
Variable aggregate_preferences : list Prefs.t → Aggregated.
Variable dumps_aggregated : Aggregated → string.

(** [self.user_prefs_cache_ttl] *)
Definition user_prefs_cache_ttl : Z := 300.

(** [f"user_prefs:{user.id}"] *)
Definition user_prefs_key (user : Prefs.t) : string :=
  ("user_prefs:" +:+ Py.str_int (Prefs.user_id user))%string.

(** [MatchingCache.cache_user_preferences] at time [now], the database
    returning [users]: one entry per user, then the aggregate. *)
Definition cache_user_preferences (now : Z) (users : list Prefs.t)
    (redis : gmap string (string * Z)) : gmap string (string * Z) :=
  let redis :=
    foldl (λ redis user,
             let key := user_prefs_key user in
             redis_setex now key user_prefs_cache_ttl (dumps_user user) redis)
      redis users in
  let aggregated := aggregate_preferences users in
  redis_setex now "aggregated_prefs" user_prefs_cache_ttl (dumps_aggregated aggregated) redis.

End MatchingCache.



(** A value of an [integer] column of the database (32 bits). *)
Definition is_int32 (n : Z) : Prop := - 2 ^ 31 ≤ n < 2 ^ 31.

(** * Properties *)

(** ** Python primitives *)

Example str_int_1000 : Py.str_int 1000 = "1000"%string.
Proof. reflexivity. Qed.

Example str_int_0 : Py.str_int 0 = "0"%string.
Proof. reflexivity. Qed.

Example str_int_minus_15 : Py.str_int (-15) = "-15"%string.
Proof. reflexivity. Qed.

Example split_key : Py.split "-" "900-1100" = ["900"; "1100"]%string.
Proof. reflexivity. Qed.

Example split_negative_key : Py.split "-" "-1-100" = [EmptyString; "1"; "100"]%string.
Proof. reflexivity. Qed.

Example int_empty : Py.int EmptyString = None.
Proof. reflexivity. Qed.

Example int_None : Py.int "None" = None.
Proof. reflexivity. Qed.

Example int_digits : Py.int "0900" = Some 900.
Proof. reflexivity. Qed.

(** ** Scoring *)

Lemma spec_count_amenity_matches_le_3 listing preferences :
  (SpecModel.count_amenity_matches listing preferences ≤ 3)%nat.
Proof.
  unfold SpecModel.count_amenity_matches.
  do 3 destruct (SpecModel.amenity_satisfied _ _); simpl; lia.
Qed.

Lemma add_price_preference_ge listing preferences score :
  (score <= add_price_preference listing preferences score)%Q.
Proof.
  unfold add_price_preference.
  destruct (Py.truthy _) as [ideal_price|]; [|apply Qle_refl].
  cbv zeta.
  set (price_score := Qmax 0 _).
  assert (0 <= price_score)%Q by apply Q.le_max_l.
  lra.
Qed.

Lemma add_location_preference_ge listing preferences score :
  (score <= add_location_preference listing preferences score)%Q.
Proof.
  unfold add_location_preference.
  repeat case_bool_decide; lra.
Qed.

Lemma add_size_preference_ge listing preferences score :
  (score <= add_size_preference listing preferences score)%Q.
Proof.
  unfold add_size_preference.
  destruct (Py.truthy _); [destruct (Qeq_bool _ _)|]; lra.
Qed.

Lemma add_amenities_eq self listing preferences score :
  (add_amenities self listing preferences score
   == score + 5 * inject_Z (Z.of_nat (count_amenity_matches self listing preferences)))%Q.
Proof. unfold add_amenities. cbv zeta. ring. Qed.

Lemma inject_Z_of_nat_nonneg (n : nat) : (0 <= inject_Z (Z.of_nat n))%Q.
Proof. change 0%Q with (inject_Z 0). rewrite <- Zle_Qle. lia. Qed.

Lemma inject_Z_of_nat_le (n m : nat) :
  (n ≤ m)%nat → (inject_Z (Z.of_nat n) <= inject_Z (Z.of_nat m))%Q.
Proof. intros Hle. rewrite <- Zle_Qle. lia. Qed.

Lemma add_amenities_ge self listing preferences score :
  (score <= add_amenities self listing preferences score)%Q.
Proof.
  rewrite add_amenities_eq.
  pose proof (inject_Z_of_nat_nonneg (count_amenity_matches self listing preferences)).
  lra.
Qed.

Lemma calculate_match_score_range self listing preferences :
  (0 <= calculate_match_score self listing preferences <= 100)%Q.
Proof.
  unfold calculate_match_score. cbv zeta. split.
  - apply Q.min_glb; [lra|].
    eapply Qle_trans; [|apply add_amenities_ge].
    eapply Qle_trans; [|apply add_size_preference_ge].
    eapply Qle_trans; [|apply add_location_preference_ge].
    apply add_price_preference_ge.
  - apply Q.le_min_l.
Qed.

(** C2. Scoring a (listing, preference) pair either excludes it, exactly
    when a hard filter of [listing_matches_preferences] fails and then
    without a score, or yields the value of [calculate_match_score], which
    lies between 0 and 100.  This holds whatever the helper methods of the
    engine are. *)
Theorem score_is_excluded_or_within_0_100
    (self : UserPreferenceEngine)
    (listing : Listing.t) (user_id : Z) (preferences : Prefs.t) :
  (listing_matches_preferences self listing preferences = false
   ∧ match_user self listing (user_id, preferences) = None)
  ∨ (listing_matches_preferences self listing preferences = true
     ∧ ∃ m, match_user self listing (user_id, preferences) = Some m
            ∧ match_score m = calculate_match_score self listing preferences
            ∧ (0 <= match_score m <= 100)%Q).
Proof.
  unfold match_user.
  destruct (listing_matches_preferences _ _ _); [right|left]; split; try done.
  eexists; split; [done|]. split; [done|].
  apply calculate_match_score_range.
Qed.

(** Every entry that [find_matching_users] returns belongs to a user of
    the dictionary whose preferences the listing matches, and carries a
    score between 0 and 100. *)
Lemma find_matching_users_entries self listing user_preferences m :
  m ∈ find_matching_users self listing user_preferences →
  (match_user_id m, match_preferences m) ∈ user_preferences
  ∧ listing_matches_preferences self listing (match_preferences m) = true
  ∧ (0 <= match_score m <= 100)%Q.
Proof.
  unfold find_matching_users.
  intros ([user_id preferences] & Hin & Hmatch)%list_elem_of_omap.
  unfold match_user in Hmatch.
  destruct (listing_matches_preferences self listing preferences) eqn:Hok; [|done].
  injection Hmatch as <-. simpl. split; [done|]. split; [done|].
  apply calculate_match_score_range.
Qed.

(** C3 (as stated, refuted).  Preference A without an ideal price passes
    every filter on the Mitte listing, and the price block then adds 0, not
    30: its score is 50 where preference A itself scores 80. *)
Lemma price_component_without_ideal_price_is_not_30 :
  listing_matches_preferences (spec_engine any_location)
    listing_mitte preference_A_no_ideal = true
  ∧ Prefs.ideal_price preference_A_no_ideal = None
  ∧ add_price_preference listing_mitte preference_A_no_ideal 0 = 0%Q
  ∧ ¬ (add_price_preference listing_mitte preference_A_no_ideal 0 == 30)%Q
  ∧ (calculate_match_score (spec_engine any_location)
       listing_mitte preference_A_no_ideal == 50)%Q
  ∧ (calculate_match_score (spec_engine any_location)
       listing_mitte preference_A == 80)%Q.
Proof. repeat split; try reflexivity. intros H. discriminate H. Qed.

(** C3 (amended).  When the preference has no ideal price (unset, or 0,
    which Python treats alike), the price block leaves the running score as
    it is: the price-fit component contributes 0. *)
Theorem price_component_without_ideal_price_is_0
    (listing : Listing.t) (preferences : Prefs.t) (score : Q) :
  Prefs.ideal_price preferences = None ∨ Prefs.ideal_price preferences = Some 0 →
  add_price_preference listing preferences score = score.
Proof.
  unfold add_price_preference. by intros [-> | ->].
Qed.

Lemma price_component_without_ideal_price_is_0_witness :
  add_price_preference listing_mitte preference_A_no_ideal 7 = 7%Q.
Proof.
  apply (price_component_without_ideal_price_is_0 listing_mitte preference_A_no_ideal 7).
  left. reflexivity.
Defined.

(** With the amenity count of the spec, over three amenities, the amenity
    block adds 5 points for each satisfied match and at most 15. *)
Lemma spec_amenity_bonus_at_most_15
    (location_matches : string → list string → bool)
    (listing : Listing.t) (preferences : Prefs.t) (score : Q) :
  let bonus :=
    (add_amenities (spec_engine location_matches) listing preferences score - score)%Q in
  let matches :=
    inject_Z (Z.of_nat (SpecModel.count_amenity_matches listing preferences)) in
  (bonus == 5 * matches)%Q ∧ (bonus <= 15)%Q.
Proof.
  intros bonus matches.
  assert (Hrange : (matches <= inject_Z (Z.of_nat 3))%Q)
    by apply inject_Z_of_nat_le, spec_count_amenity_matches_le_3.
  change (inject_Z (Z.of_nat 3)) with 3%Q in Hrange.
  assert (Hbonus : (bonus == 5 * matches)%Q).
  { unfold bonus. rewrite add_amenities_eq. simpl count_amenity_matches.
    fold matches. ring. }
  split; [exact Hbonus|]. rewrite Hbonus. lra.
Qed.



Example amenity_bonus_three_matches :
  (add_amenities (spec_engine any_location)
     {| Listing.external_id := "X1"; Listing.price := 1000;
        Listing.location := "Mitte"; Listing.district := "Mitte";
        Listing.rooms := 2; Listing.size_sqm := None;
        Listing.pet_friendly := Some true; Listing.balcony := Some true;
        Listing.furnished := Some false |}
     {| Prefs.user_id := 1;
        Prefs.price_min := None; Prefs.price_max := None;
        Prefs.ideal_price := None;
        Prefs.preferred_districts := [];
        Prefs.top_preferred_districts := [];
        Prefs.acceptable_districts := [];
        Prefs.min_rooms := None; Prefs.max_rooms := None;
        Prefs.ideal_rooms := None; Prefs.min_size_sqm := None;
        Prefs.pet_friendly := Some true; Prefs.balcony_required := Some true;
        Prefs.furnished := Some false |} 0 == 15)%Q.
Proof. reflexivity. Qed.

(** ** Exclusion *)

Lemma match_user_excluded_iff self listing user_id preferences :
  match_user self listing (user_id, preferences) = None
  ↔ listing_matches_preferences self listing preferences = false.
Proof. unfold match_user. by destruct (listing_matches_preferences _ _ _). Qed.

(** The location check is a factor of the exclusion decision: the engine
    agrees with the engine without a location check wherever its own check
    accepts, and excludes wherever it refuses. *)
Lemma listing_matches_preferences_location self listing preferences :
  listing_matches_preferences self listing preferences
  = location_matches self (Listing.location listing) (Prefs.preferred_districts preferences)
    && listing_matches_preferences (with_location_check any_location self)
         listing preferences.
Proof.
  unfold listing_matches_preferences, any_location. simpl.
  destruct (price_in_range _ _ _ _), (location_matches _ _ _), (size_matches _ _ _ _),
    (additional_criteria_match _ _ _); reflexivity.
Qed.

Lemma match_user_location self listing user_id preferences :
  match_user self listing (user_id, preferences)
  = if location_matches self (Listing.location listing)
         (Prefs.preferred_districts preferences)
    then match_user (with_location_check any_location self) listing (user_id, preferences)
    else None.
Proof.
  unfold match_user.
  rewrite (listing_matches_preferences_location self).
  by destruct (location_matches _ _ _).
Qed.

(** C5 (as stated, refuted).  With the location check "the location is one
    of the preferred districts", preference A is scored on the Mitte listing
    and excluded on the Spandau listing, which differs from it in the
    district only and lies in neither of A's tiers. *)
Lemma unlisted_district_is_excluded_by_location_check :
  (Listing.district listing_spandau ∉ Prefs.top_preferred_districts preference_A)
  ∧ (Listing.district listing_spandau ∉ Prefs.acceptable_districts preference_A)
  ∧ is_Some (match_user (spec_engine location_is_preferred) listing_mitte (1, preference_A))
  ∧ match_user (spec_engine location_is_preferred) listing_spandau (1, preference_A) = None.
Proof.
  split; [|split; [|split]].
  - apply (proj1 (bool_decide_eq_false _)). reflexivity.
  - apply (proj1 (bool_decide_eq_false _)). reflexivity.
  - eexists. reflexivity.
  - reflexivity.
Qed.

(** C5 (amended).  When the listing's district is in neither tier, the
    district block adds 0 to the score; whether the pair is scored at all is
    decided by [listing_matches_preferences], whose location check is a
    hard filter: the pair is excluded when the check refuses the listing's
    location, and treated as by the engine without the check otherwise. *)
Theorem unlisted_district_adds_0_and_location_check_excludes
    (self : UserPreferenceEngine)
    (listing : Listing.t) (user_id : Z) (preferences : Prefs.t) (score : Q) :
  Listing.district listing ∉ Prefs.top_preferred_districts preferences →
  Listing.district listing ∉ Prefs.acceptable_districts preferences →
  add_location_preference listing preferences score = score
  ∧ match_user self listing (user_id, preferences)
    = if location_matches self (Listing.location listing)
           (Prefs.preferred_districts preferences)
      then match_user (with_location_check any_location self)
             listing (user_id, preferences)
      else None.
Proof.
  intros Htop Hacceptable. split.
  - unfold add_location_preference.
    by rewrite !bool_decide_eq_false_2.
  - apply match_user_location.
Qed.

Lemma unlisted_district_adds_0_and_location_check_excludes_witness :
  add_location_preference listing_spandau preference_A 0 = 0%Q
  ∧ match_user (spec_engine location_is_preferred) listing_spandau (1, preference_A)
    = if location_is_preferred (Listing.location listing_spandau)
           (Prefs.preferred_districts preference_A)
      then match_user (with_location_check any_location (spec_engine location_is_preferred))
             listing_spandau (1, preference_A)
      else None.
Proof.
  apply (unlisted_district_adds_0_and_location_check_excludes
           (spec_engine location_is_preferred) listing_spandau 1 preference_A 0).
  - apply (proj1 (bool_decide_eq_false _)). reflexivity.
  - apply (proj1 (bool_decide_eq_false _)). reflexivity.
Defined.

(** C6 (as stated, refuted).  On the Mitte listing preference A scores 80,
    not 100: 30 for the price, 30 for the district, 20 for the rooms and
    nothing for amenities, none being stated. *)
Lemma scenario_score_is_not_100 :
  (match_score <$> match_user (spec_engine any_location) listing_mitte (1, preference_A))
  = Some (calculate_match_score (spec_engine any_location) listing_mitte preference_A)
  ∧ (calculate_match_score (spec_engine any_location) listing_mitte preference_A == 80)%Q
  ∧ ¬ (calculate_match_score (spec_engine any_location) listing_mitte preference_A == 100)%Q.
Proof. split; [reflexivity|]. split; [reflexivity|]. intros H. discriminate H. Qed.

(** On the Mitte listing the price, district and room blocks give
    preference A 80 points, whatever the engine's helper methods; the rest
    is 5 points per amenity match the engine counts. *)
Lemma scenario_A_score self :
  (calculate_match_score self listing_mitte preference_A
   == Qmin 100 (80 + 5 * inject_Z (Z.of_nat
                   (count_amenity_matches self listing_mitte preference_A))))%Q.
Proof.
  unfold calculate_match_score. cbv zeta.
  set (base := add_size_preference _ _ _).
  assert (Hbase : (base == 80)%Q) by reflexivity.
  rewrite add_amenities_eq. by rewrite Hbase.
Qed.

(** C6 (amended).  On the listing (price 1000, 2 rooms, Mitte), preference
    A is scored whenever the location check accepts Mitte for it, and its
    score is then exactly 80: the price, district and room blocks add 30,
    30 and 20, and no amenity is stated; preference B (price 1200-1500) is
    excluded, whatever the location check, and no score is computed. *)
Theorem scenario_A_scores_80_and_B_is_excluded
    (location_matches : string → list string → bool) :
  let self := spec_engine location_matches in
  match_user self listing_mitte (1, preference_A)
  = (if location_matches "Mitte"%string ["Mitte"%string]
     then Some {| match_user_id := 1;
                  match_preferences := preference_A;
                  match_score := calculate_match_score self listing_mitte preference_A |}
     else None)
  ∧ (add_price_preference listing_mitte preference_A 0 == 30)%Q
  ∧ (add_location_preference listing_mitte preference_A 30 == 60)%Q
  ∧ (add_size_preference listing_mitte preference_A 60 == 80)%Q
  ∧ (calculate_match_score self listing_mitte preference_A == 80)%Q
  ∧ match_user self listing_mitte (2, preference_B) = None.
Proof.
  intros self. split; [|repeat split].
  rewrite match_user_location. unfold self. simpl.
  by destruct (location_matches _ _).
Qed.

(** C9. With the amenity check of the spec: if two listings agree on
    price, location, rooms and size, and differ at most in amenities about
    which the preference says nothing, then one is excluded exactly when
    the other is. *)
Theorem unspecified_amenity_never_changes_exclusion
    (location_matches : string → list string → bool)
    (listing listing' : Listing.t) (user_id : Z) (preferences : Prefs.t) :
  let self := spec_engine location_matches in
  Listing.price listing = Listing.price listing' →
  Listing.location listing = Listing.location listing' →
  Listing.rooms listing = Listing.rooms listing' →
  Listing.size_sqm listing = Listing.size_sqm listing' →
  (Prefs.pet_friendly preferences = None
   ∨ Listing.pet_friendly listing = Listing.pet_friendly listing') →
  (Prefs.balcony_required preferences = None
   ∨ Listing.balcony listing = Listing.balcony listing') →
  (Prefs.furnished preferences = None
   ∨ Listing.furnished listing = Listing.furnished listing') →
  listing_matches_preferences self listing preferences
  = listing_matches_preferences self listing' preferences
  ∧ (match_user self listing (user_id, preferences) = None
     ↔ match_user self listing' (user_id, preferences) = None).
Proof.
  intros self Hprice Hlocation Hrooms Hsize Hpet Hbalcony Hfurnished.
  assert (Hsame : listing_matches_preferences self listing preferences
                  = listing_matches_preferences self listing' preferences).
  { unfold listing_matches_preferences. simpl.
    unfold SpecModel.additional_criteria_match.
    rewrite Hprice, Hlocation, Hrooms, Hsize.
    assert (Hp : SpecModel.amenity_compatible
                   (Prefs.pet_friendly preferences) (Listing.pet_friendly listing)
                 = SpecModel.amenity_compatible
                     (Prefs.pet_friendly preferences) (Listing.pet_friendly listing'))
      by (destruct Hpet as [-> | ->]; reflexivity).
    assert (Hb : SpecModel.amenity_compatible
                   (Prefs.balcony_required preferences) (Listing.balcony listing)
                 = SpecModel.amenity_compatible
                     (Prefs.balcony_required preferences) (Listing.balcony listing'))
      by (destruct Hbalcony as [-> | ->]; reflexivity).
    assert (Hf : SpecModel.amenity_compatible
                   (Prefs.furnished preferences) (Listing.furnished listing)
                 = SpecModel.amenity_compatible
                     (Prefs.furnished preferences) (Listing.furnished listing'))
      by (destruct Hfurnished as [-> | ->]; reflexivity).
    by rewrite Hp, Hb, Hf. }
  split; [exact Hsame|].
  by rewrite !match_user_excluded_iff, Hsame.
Qed.

Lemma unspecified_amenity_never_changes_exclusion_witness :
  listing_matches_preferences (spec_engine location_is_preferred)
    listing_mitte preference_A
  = listing_matches_preferences (spec_engine location_is_preferred)
      listing_mitte_with_amenities preference_A
  ∧ (match_user (spec_engine location_is_preferred) listing_mitte (1, preference_A) = None
     ↔ match_user (spec_engine location_is_preferred)
         listing_mitte_with_amenities (1, preference_A) = None).
Proof.
  apply (unspecified_amenity_never_changes_exclusion
           location_is_preferred listing_mitte listing_mitte_with_amenities 1 preference_A);
    try reflexivity; left; reflexivity.
Defined.

(** ** Notifications and automatic application *)

Lemma elem_of_if_append {A} (b : bool) (l : list A) (x y : A) :
  y ∈ (if b then l ++ [x] else l) ↔ y ∈ l ∨ (b = true ∧ y = x).
Proof.
  destruct b.
  - rewrite elem_of_app, list_elem_of_singleton. tauto.
  - intuition discriminate.
Qed.

Lemma Qle_bool_false_iff (x y : Q) : Qle_bool x y = false ↔ (y < x)%Q.
Proof.
  rewrite <- not_true_iff_false, Qle_bool_iff. split.
  - apply Qnot_le_lt.
  - intros Hlt Hle. by apply (Qlt_not_le _ _ Hlt).
Qed.

(** Membership of each intent in the list [notify_user_of_match] builds. *)
Lemma notify_user_of_match_elem (user : User.t) (match_score : Q) (intent : Intent) :
  intent ∈ notify_user_of_match user match_score ↔
  match intent with
  | send_email_notification => "email"%string ∈ User.notification_methods user
  | send_push_notification => "push"%string ∈ User.notification_methods user
  | send_sms_notification =>
      "sms"%string ∈ User.notification_methods user ∧ (80 < match_score)%Q
  | trigger_auto_application =>
      User.auto_apply_enabled user = true
      ∧ (inject_Z (User.auto_apply_threshold user) <= match_score)%Q
  end.
Proof.
  unfold notify_user_of_match. cbv zeta.
  rewrite !elem_of_if_append, elem_of_nil.
  rewrite !andb_true_iff, negb_true_iff, !bool_decide_eq_true.
  rewrite Qle_bool_false_iff, Qle_bool_iff.
  destruct intent; intuition congruence.
Qed.

(** C7 (as stated, refuted).  For a user reachable by SMS only, with
    automatic application at threshold 80, a score of 79 emits nothing at
    all, and a score of 80 emits the application without any notification:
    the SMS is sent above 80 only. *)
Lemma sms_only_user_gets_no_notification_at_79_and_80 :
  User.auto_apply_enabled sms_only_user = true
  ∧ User.auto_apply_threshold sms_only_user = 80
  ∧ notify_user_of_match sms_only_user 79 = []
  ∧ notify_user_of_match sms_only_user 80 = [trigger_auto_application].
Proof. repeat split. Qed.

(** C7 (amended).  For a user with automatic application enabled, the
    application is triggered exactly when the score reaches the user's
    threshold.  With threshold 80 and a channel set that holds email or
    push, a score of 79 emits a notification and no application, and a
    score of 80 emits both. *)
Theorem auto_application_iff_score_reaches_threshold
    (user : User.t) (match_score : Q) :
  User.auto_apply_enabled user = true →
  (trigger_auto_application ∈ notify_user_of_match user match_score
   ↔ (inject_Z (User.auto_apply_threshold user) <= match_score)%Q)
  ∧ (User.auto_apply_threshold user = 80 →
     "email"%string ∈ User.notification_methods user
     ∨ "push"%string ∈ User.notification_methods user →
     (∃ intent, intent ∈ notify_user_of_match user 79 ∧ is_notification intent = true)
     ∧ (trigger_auto_application ∉ notify_user_of_match user 79)
     ∧ (∃ intent, intent ∈ notify_user_of_match user 80 ∧ is_notification intent = true)
     ∧ trigger_auto_application ∈ notify_user_of_match user 80).
Proof.
  intros Hauto. split.
  - rewrite notify_user_of_match_elem. tauto.
  - intros Hthreshold Hchannel.
    assert (Hnotified : ∀ score, ∃ intent,
               intent ∈ notify_user_of_match user score ∧ is_notification intent = true).
    { intros score. destruct Hchannel as [Hemail | Hpush].
      - exists send_email_notification. by rewrite notify_user_of_match_elem.
      - exists send_push_notification. by rewrite notify_user_of_match_elem. }
    split; [apply Hnotified|]. split; [|split; [apply Hnotified|]].
    + rewrite notify_user_of_match_elem, Hthreshold. intros [_ Hle].
      revert Hle. apply Qlt_not_le. reflexivity.
    + rewrite notify_user_of_match_elem, Hthreshold. split; [done|].
      apply Qle_refl.
Qed.

Lemma auto_application_iff_score_reaches_threshold_witness :
  (∃ intent, intent ∈ notify_user_of_match email_user 79 ∧ is_notification intent = true)
  ∧ (trigger_auto_application ∉ notify_user_of_match email_user 79)
  ∧ (∃ intent, intent ∈ notify_user_of_match email_user 80 ∧ is_notification intent = true)
  ∧ trigger_auto_application ∈ notify_user_of_match email_user 80.
Proof.
  apply (auto_application_iff_score_reaches_threshold email_user 80).
  - reflexivity.
  - reflexivity.
  - left. apply (bool_decide_eq_true_1 _). reflexivity.
Defined.

(** C10. For a user whose channel set holds SMS, the SMS is sent exactly
    when the score is strictly above 80; at 80 or below it is left out,
    while email and push are sent whenever they are in the channel set. *)
Theorem sms_is_sent_only_above_80 (user : User.t) (match_score : Q) :
  "sms"%string ∈ User.notification_methods user →
  (send_sms_notification ∈ notify_user_of_match user match_score
   ↔ (80 < match_score)%Q)
  ∧ ((match_score <= 80)%Q →
     (send_sms_notification ∉ notify_user_of_match user match_score)
     ∧ (send_email_notification ∈ notify_user_of_match user match_score
        ↔ "email"%string ∈ User.notification_methods user)
     ∧ (send_push_notification ∈ notify_user_of_match user match_score
        ↔ "push"%string ∈ User.notification_methods user)).
Proof.
  intros Hsms. split.
  - rewrite notify_user_of_match_elem. tauto.
  - intros Hle. split; [|split].
    + rewrite notify_user_of_match_elem. intros [_ Hlt].
      by apply (Qlt_not_le _ _ Hlt).
    + apply notify_user_of_match_elem.
    + apply notify_user_of_match_elem.
Qed.

Lemma sms_is_sent_only_above_80_witness :
  (send_sms_notification ∈ notify_user_of_match all_channels_user 80
   ↔ (80 < 80)%Q)
  ∧ ((80 <= 80)%Q →
     (send_sms_notification ∉ notify_user_of_match all_channels_user 80)
     ∧ (send_email_notification ∈ notify_user_of_match all_channels_user 80
        ↔ "email"%string ∈ User.notification_methods all_channels_user)
     ∧ (send_push_notification ∈ notify_user_of_match all_channels_user 80
        ↔ "push"%string ∈ User.notification_methods all_channels_user)).
Proof.
  apply (sms_is_sent_only_above_80 all_channels_user 80).
  apply (bool_decide_eq_true_1 _). reflexivity.
Defined.

Example all_channels_at_80 :
  notify_user_of_match all_channels_user 80
  = [send_email_notification; send_push_notification].
Proof. reflexivity. Qed.

Example all_channels_at_81 :
  notify_user_of_match all_channels_user 81
  = [send_email_notification; send_push_notification; send_sms_notification].
Proof. reflexivity. Qed.

(** ** Change detector *)


Section ChangeDetectorFacts.

Context {Hash : Type} `{EqDecision Hash}.
Variable content_hash : Z * Q * option Z * string → Hash.

#[local] Abbreviation detect_one := (detect_one content_hash).
#[local] Abbreviation detect_new := (detect_new content_hash).
#[local] Abbreviation listing_hash := (listing_hash content_hash).

Implicit Types (seen_listings : gmap string Hash) (batch : list Listing.t).


















End ChangeDetectorFacts.

Example detect_new_first_sighting :
  (detect_new tuple_hash ∅ [listing_mitte; listing_spandau; listing_mitte]).2
  = [emit_new listing_mitte; emit_new listing_spandau].
Proof. reflexivity. Qed.

Example detect_new_same_batch_again :
  let first := detect_new tuple_hash ∅ [listing_mitte; listing_spandau] in
  (detect_new tuple_hash first.1 [listing_mitte; listing_spandau]).2 = [].
Proof. reflexivity. Qed.

(** A batch that shows one id with two contents: both runs hand on
    updates, neither hands the id on as new a second time. *)
Example detect_new_two_contents :
  let first := detect_new tuple_hash ∅ [listing_mitte; listing_mitte_repriced] in
  first.2 = [emit_new listing_mitte; emit_update listing_mitte_repriced]
  ∧ (detect_new tuple_hash first.1 [listing_mitte; listing_mitte_repriced]).2
    = [emit_update listing_mitte; emit_update listing_mitte_repriced].
Proof. split; reflexivity. Qed.

Example detect_new_changed_price :
  let first := detect_new tuple_hash ∅ [listing_mitte] in
  (detect_new tuple_hash first.1 [listing_mitte_repriced]).2
  = [emit_update listing_mitte_repriced].
Proof. reflexivity. Qed.

(** ** Index keys: printing, splitting and parsing *)

Lemma split_not_nil sep s : Py.split sep s ≠ [].
Proof.
  destruct s as [|c s]; simpl; [done|].
  destruct (Ascii.eqb c sep); [done|]. by destruct (Py.split sep s).
Qed.

Lemma split_without_separator sep s :
  occurs sep s = false → Py.split sep s = [s].
Proof.
  induction s as [|c s IH]; simpl; [done|].
  intros [Hc Hs]%orb_false_iff. by rewrite Hc, IH.
Qed.

Lemma split_at_first_separator sep s1 s2 :
  occurs sep s1 = false →
  Py.split sep (s1 +:+ String sep s2) = s1 :: Py.split sep s2.
Proof.
  induction s1 as [|c s1 IH]; simpl.
  - intros _. by rewrite Ascii.eqb_refl.
  - intros [Hc Hs]%orb_false_iff. by rewrite Hc, IH.
Qed.

Lemma split_leading_separator sep s :
  Py.split sep (String sep s) = EmptyString :: Py.split sep s.
Proof. simpl. by rewrite Ascii.eqb_refl. Qed.

Lemma digits_have_no_dash d : occurs "-" (NilEmpty.string_of_uint d) = false.
Proof. induction d; simpl; auto. Qed.

Lemma str_int_nonneg n :
  0 ≤ n → occurs "-" (Py.str_int n) = false.
Proof.
  intros Hn. unfold Py.str_int. destruct n as [|p|p]; [done| |lia].
  simpl. unfold NilZero.string_of_uint.
  destruct (Pos.to_uint p); try apply digits_have_no_dash. done.
Qed.

Lemma str_int_neg n :
  n < 0 → ∃ digits, Py.str_int n = String "-" digits.
Proof.
  intros Hn. destruct n as [|p|p]; [lia|lia|]. by eexists.
Qed.

Lemma int_str_int n : Py.int (Py.str_int n) = Some n.
Proof.
  unfold Py.int, Py.str_int. rewrite NilZero.isi.
  - simpl. by rewrite DecimalZ.of_to.
  - destruct n as [|p|p]; simpl; try done.
    intros [= Hnil]. by apply (DecimalPos.Unsigned.to_uint_nonnil p).
  - destruct n as [|p|p]; simpl; try done.
    intros [= Hnil]. by apply (DecimalPos.Unsigned.to_uint_nonnil p).
Qed.

(** A key whose first piece is not an integer literal does not parse,
    however many pieces follow. *)
Lemma parse_price_range_bad_first_piece price_range piece rest :
  Py.split "-" price_range = piece :: rest →
  Py.int piece = None →
  parse_price_range price_range = None.
Proof.
  intros Hsplit Hint. unfold parse_price_range. rewrite Hsplit.
  destruct rest as [|hi [|]]; try done. by rewrite Hint.
Qed.

Lemma price_key_eq user :
  price_key user
  = (Py.str_opt (Prefs.price_min user) +:+ String "-" (Py.str_opt (Prefs.price_max user)))%string.
Proof. reflexivity. Qed.

(** The key of a user parses exactly when both bounds are set and neither
    is negative, and then to the bounds themselves. *)
Lemma parse_price_range_price_key user :
  parse_price_range (price_key user)
  = match Prefs.price_min user, Prefs.price_max user with
    | Some lo, Some hi =>
        if decide (0 ≤ lo ∧ 0 ≤ hi) then Some (lo, hi) else None
    | _, _ => None
    end.
Proof.
  rewrite price_key_eq.
  destruct (Prefs.price_min user) as [lo|]; simpl Py.str_opt.
  2:{ erewrite parse_price_range_bad_first_piece;
        [by destruct (Prefs.price_max user)
        |by apply (split_at_first_separator "-" "None")
        |done]. }
  destruct (decide (0 ≤ lo)) as [Hlo|Hlo].
  2:{ destruct (str_int_neg lo) as [digits ->]; [lia|].
      erewrite parse_price_range_bad_first_piece;
        [|by apply split_leading_separator|done].
      destruct (Prefs.price_max user); [|done].
      rewrite decide_False; [done|tauto]. }
  unfold parse_price_range.
  rewrite (split_at_first_separator "-" (Py.str_int lo)) by by apply str_int_nonneg.
  destruct (Prefs.price_max user) as [hi|]; simpl Py.str_opt.
  2:{ by rewrite int_str_int. }
  destruct (decide (0 ≤ hi)) as [Hhi|Hhi].
  - rewrite split_without_separator by by apply str_int_nonneg.
    rewrite !int_str_int. simpl. by rewrite decide_True.
  - destruct (str_int_neg hi) as [digits ->]; [lia|].
    rewrite split_leading_separator.
    destruct (Py.split "-" digits) eqn:Hsplit; [by apply split_not_nil in Hsplit|].
    rewrite decide_False; [done|tauto].
Qed.

(** ** Candidate lookup *)

Lemma index_append_lookup key user_id index key' :
  index_append key user_id index !! key'
  = if decide (key = key') then Some (default [] (index !! key) ++ [user_id])
    else index !! key'.
Proof. unfold index_append. apply lookup_insert. Qed.

(** Filing users never removes an id from the price index. *)
Lemma build_price_index_keeps indexes users key user_ids user_id :
  price_index indexes !! key = Some user_ids →
  user_id ∈ user_ids →
  ∃ user_ids',
    price_index (foldl index_user indexes users) !! key = Some user_ids'
    ∧ user_id ∈ user_ids'.
Proof.
  revert indexes user_ids.
  induction users as [|user users IH]; intros indexes user_ids Hkey Hin; simpl; [eauto|].
  destruct (decide (price_key user = key)) as [Heq|Hne].
  - eapply IH.
    + simpl. rewrite index_append_lookup, decide_True by done. reflexivity.
    + rewrite <- Heq in Hkey. rewrite Hkey. simpl. apply elem_of_app. by left.
  - eapply IH; [|done].
    simpl. by rewrite index_append_lookup, decide_False.
Qed.

(** Every user is filed under its own key. *)
Lemma build_price_index_files indexes users user :
  user ∈ users →
  ∃ user_ids,
    price_index (foldl index_user indexes users) !! price_key user = Some user_ids
    ∧ Prefs.user_id user ∈ user_ids.
Proof.
  revert indexes.
  induction users as [|first users IH]; intros indexes; [by intros ?%elem_of_nil|].
  simpl. intros [->|Hin]%elem_of_cons; [|by apply IH].
  eapply build_price_index_keeps.
  - simpl. rewrite index_append_lookup, decide_True by done. reflexivity.
  - apply elem_of_app. right. by left.
Qed.

(** Every key of the price index is a key it had before or the key of a
    user that was filed. *)
Lemma build_price_index_keys indexes users key :
  is_Some (price_index (foldl index_user indexes users) !! key) →
  is_Some (price_index indexes !! key)
  ∨ ∃ user, user ∈ users ∧ price_key user = key.
Proof.
  revert indexes.
  induction users as [|first users IH]; intros indexes; simpl; [by left|].
  intros [Hold|(user & Hin & Hkey)]%IH.
  - simpl in Hold. rewrite index_append_lookup in Hold.
    case_decide as Heq; [|by left].
    right. exists first. split; [left|done].
  - right. exists user. split; [by right|done].
Qed.

(** The loop over the price index raises as soon as one key does not
    parse. *)
Lemma scan_price_index_raises price items candidate_users price_range user_ids :
  (price_range, user_ids) ∈ items →
  parse_price_range price_range = None →
  scan_price_index price items candidate_users = None.
Proof.
  revert candidate_users.
  induction items as [|[key ids] items IH]; intros candidate_users;
    [by intros ?%elem_of_nil|].
  intros [[= <- <-]|Hin]%elem_of_cons Hparse; simpl.
  - by rewrite Hparse.
  - destruct (parse_price_range key) as [[lo hi]|]; simpl; [|done].
    by apply IH.
Qed.

(** When every key parses the loop returns, keeps what it was given and
    adds the ids filed under every range that holds the price. *)
Lemma scan_price_index_returns price items candidate_users :
  (∀ price_range user_ids,
     (price_range, user_ids) ∈ items → is_Some (parse_price_range price_range)) →
  ∃ found,
    scan_price_index price items candidate_users = Some found
    ∧ candidate_users ⊆ found
    ∧ ∀ price_range user_ids min_price max_price,
        (price_range, user_ids) ∈ items →
        parse_price_range price_range = Some (min_price, max_price) →
        min_price ≤ price ≤ max_price →
        list_to_set user_ids ⊆ found.
Proof.
  revert candidate_users.
  induction items as [|[key ids] items IH]; intros candidate_users Hparse.
  - exists candidate_users. split; [done|]. split; [done|].
    by intros ???? ?%elem_of_nil.
  - destruct (Hparse key ids) as [[lo hi] Hkey]; [left|].
    simpl. rewrite Hkey. simpl.
    edestruct IH as (found & -> & Hkeeps & Hadds).
    { intros price_range user_ids Hin. eapply Hparse. by right. }
    exists found. split; [done|]. split.
    + case_bool_decide; [|done].
      etrans; [apply union_subseteq_l|exact Hkeeps].
    + intros price_range user_ids min_price max_price
        [[= -> ->]|Hin]%elem_of_cons Hrange Hprice.
      * rewrite Hkey in Hrange. injection Hrange as -> ->.
        rewrite bool_decide_eq_true_2 in Hkeeps by done.
        etrans; [apply union_subseteq_r|exact Hkeeps].
      * by eapply Hadds.
Qed.

(** A user that passes the price check of the exact filter has both of its
    set bounds around the price. *)
Lemma price_in_range_bounds price lo hi :
  SpecModel.price_in_range price (Some lo) (Some hi) = true → lo ≤ price ≤ hi.
Proof.
  unfold SpecModel.price_in_range. simpl.
  intros [Hlo Hhi]%andb_true_iff.
  apply bool_decide_eq_true in Hlo, Hhi. lia.
Qed.

Lemma listing_matches_preferences_price self listing preferences :
  listing_matches_preferences self listing preferences = true →
  price_in_range self (Listing.price listing)
    (Prefs.price_min preferences) (Prefs.price_max preferences) = true.
Proof.
  unfold listing_matches_preferences. by destruct (price_in_range _ _ _ _).
Qed.

Lemma key_parses_iff user :
  key_parses user ↔ is_Some (parse_price_range (price_key user)).
Proof.
  rewrite parse_price_range_price_key. unfold key_parses. split.
  - intros (lo & hi & -> & -> & Hlo & Hhi). rewrite decide_True by done. eauto.
  - destruct (Prefs.price_min user) as [lo|], (Prefs.price_max user) as [hi|];
      try by intros [? [=]].
    case_decide as Hbounds; [|by intros [? [=]]].
    intros _. exists lo, hi. tauto.
Qed.

(** When every active user has both price bounds set and non-negative,
    the lookup returns, and whoever passes the exact filters (with the
    price check of the spec) is among the candidates. *)
Lemma get_candidate_users_superset
    (location_matches : string → list string → bool)
    (users : list Prefs.t) (listing : Listing.t) :
  (∀ user, user ∈ users → key_parses user) →
  ∃ candidates,
    get_candidate_users (build_user_indexes users) listing = Some candidates
    ∧ ∀ user, user ∈ users →
        listing_matches_preferences (spec_engine location_matches) listing user = true →
        Prefs.user_id user ∈ candidates.
Proof.
  intros Hparse. unfold get_candidate_users, build_user_indexes.
  set (indexes := foldl index_user _ users).
  destruct (scan_price_index_returns (Listing.price listing)
              (map_to_list (price_index indexes)) ∅) as (found & -> & _ & Hadds).
  { intros price_range user_ids Hin%elem_of_map_to_list.
    destruct (build_price_index_keys {| price_index := ∅; district_index := ∅ |}
                users price_range) as [[? Hempty]|(user & Huser & <-)];
      [by eexists|simpl in Hempty; by rewrite lookup_empty in Hempty|].
    by apply key_parses_iff, Hparse. }
  simpl. eexists. split; [done|].
  intros user Huser Hmatch.
  apply elem_of_elements.
  destruct (build_price_index_files {| price_index := ∅; district_index := ∅ |}
              users user Huser) as (user_ids & Hfiled & Hid).
  destruct (Hparse user Huser) as (lo & hi & Hmin & Hmax & Hlo & Hhi).
  assert (Hfound : list_to_set user_ids ⊆ found).
  { eapply (Hadds (price_key user) user_ids lo hi).
    - by apply elem_of_map_to_list.
    - rewrite parse_price_range_price_key, Hmin, Hmax. by rewrite decide_True.
    - apply listing_matches_preferences_price in Hmatch.
      rewrite Hmin, Hmax in Hmatch. by apply price_in_range_bounds. }
  assert (Hcandidate : Prefs.user_id user ∈ found)
    by (apply Hfound, elem_of_list_to_set, Hid).
  destruct (district_index indexes !! _); [|done].
  apply elem_of_union. by left.
Qed.

(** When some active user has a price bound that is unset or negative, the
    lookup raises, whatever the listing. *)
Lemma get_candidate_users_raises (users : list Prefs.t) (listing : Listing.t) user :
  user ∈ users → ¬ key_parses user →
  get_candidate_users (build_user_indexes users) listing = None.
Proof.
  intros Huser Hbad. unfold get_candidate_users, build_user_indexes.
  destruct (build_price_index_files {| price_index := ∅; district_index := ∅ |}
              users user Huser) as (user_ids & Hfiled & _).
  erewrite scan_price_index_raises; [done| |].
  - apply elem_of_map_to_list, Hfiled.
  - rewrite key_parses_iff in Hbad.
    by destruct (parse_price_range (price_key user)) eqn:Hkey; [destruct Hbad; eauto|].
Qed.

Example price_key_A : price_key preference_A = "900-1100"%string.
Proof. reflexivity. Qed.

Example price_key_no_min : price_key preference_no_min = "None-1500"%string.
Proof. reflexivity. Qed.

Example price_key_negative_min :
  price_key preference_negative_min = "-1-1500"%string
  ∧ Py.split "-" "-1-1500" = [EmptyString; "1"; "1500"]%string
  ∧ parse_price_range "-1-1500" = None.
Proof. repeat split. Qed.

Example candidates_negative_min :
  get_candidate_users
    (build_user_indexes [preference_A; preference_negative_min]) listing_mitte
  = None.
Proof. reflexivity. Qed.

(** A listing priced for B in a district A prefers: both are candidates,
    A through the district index although its price range does not hold
    the price. *)
Example candidates_by_district :
  ∃ candidates,
    get_candidate_users (build_user_indexes [preference_A; preference_B])
      {| Listing.external_id := "X125"; Listing.price := 1300;
         Listing.location := "Mitte"; Listing.district := "Mitte";
         Listing.rooms := 2; Listing.size_sqm := None;
         Listing.pet_friendly := None; Listing.balcony := None;
         Listing.furnished := None |}
    = Some candidates
    ∧ candidates ≡ₚ [1; 2].
Proof. eexists. split; [vm_compute; reflexivity|]. by repeat constructor. Qed.

(** C1 (the lookup at a failing input).  Preference A passes the exact
    filters on the Mitte listing and is found by the lookup when it is the
    only active preference; with one more active preference whose lower
    price bound is unset, the key of that preference does not parse and the
    lookup raises: no candidate list is returned, and A with it. *)
Theorem candidate_lookup_raises_on_unset_price_bound :
  listing_matches_preferences (spec_engine location_is_preferred)
    listing_mitte preference_A = true
  ∧ get_candidate_users (build_user_indexes [preference_A]) listing_mitte = Some [1]
  ∧ parse_price_range (price_key preference_no_min) = None
  ∧ get_candidate_users
      (build_user_indexes [preference_A; preference_no_min]) listing_mitte
    = None.
Proof. repeat split. Qed.

(** * Further properties of the modelled code *)

(** ** The indexes built by [build_user_indexes] *)

Lemma appended_nil before : appended before [] = before.
Proof. destruct before; simpl; [|done]. by rewrite app_nil_r. Qed.

Lemma appended_app before added more :
  appended (appended before added) more = appended before (added ++ more).
Proof.
  destruct before as [ids|], added as [|x added], more as [|y more]; simpl;
    rewrite ?app_nil_r, <- ?app_assoc; done.
Qed.

Lemma index_append_appended key user_id index key' :
  index_append key user_id index !! key'
  = appended (index !! key') (if decide (key = key') then [user_id] else []).
Proof.
  rewrite index_append_lookup. case_decide as Hkey.
  - subst. by destruct (index !! key').
  - by rewrite appended_nil.
Qed.

Lemma price_index_foldl indexes users key :
  price_index (foldl index_user indexes users) !! key
  = appended (price_index indexes !! key) (filed_under_key key users).
Proof.
  revert indexes.
  induction users as [|user users IH]; intros indexes; simpl.
  - by rewrite appended_nil.
  - rewrite IH. simpl. rewrite index_append_appended, appended_app.
    f_equal. unfold filed_under_key. rewrite filter_cons.
    by case_decide.
Qed.

Lemma district_entries_foldl user_id districts index district :
  foldl (λ index d, index_append d user_id index) index districts !! district
  = appended (index !! district)
      ((λ _, user_id) <$> filter (λ d, d = district) districts).
Proof.
  revert index.
  induction districts as [|d districts IH]; intros index; simpl.
  - by rewrite appended_nil.
  - rewrite IH, index_append_appended, appended_app. f_equal.
    rewrite filter_cons. by case_decide.
Qed.

Lemma district_index_foldl indexes users district :
  district_index (foldl index_user indexes users) !! district
  = appended (district_index indexes !! district) (filed_under_district district users).
Proof.
  revert indexes.
  induction users as [|user users IH]; intros indexes; simpl.
  - by rewrite appended_nil.
  - rewrite IH. simpl. by rewrite district_entries_foldl, appended_app.
Qed.

Lemma elem_of_filed_under_key key users user_id :
  user_id ∈ filed_under_key key users
  ↔ ∃ user, user ∈ users ∧ price_key user = key ∧ Prefs.user_id user = user_id.
Proof.
  unfold filed_under_key. rewrite list_elem_of_fmap. split.
  - intros (user & -> & [Hkey Hin]%list_elem_of_filter). eauto.
  - intros (user & Hin & Hkey & <-). exists user. split; [done|].
    by apply list_elem_of_filter.
Qed.

Lemma elem_of_filed_under_district district users user_id :
  user_id ∈ filed_under_district district users
  ↔ ∃ user, user ∈ users ∧ district ∈ Prefs.preferred_districts user
            ∧ Prefs.user_id user = user_id.
Proof.
  unfold filed_under_district, listed_district. rewrite list_elem_of_bind. split.
  - intros (user & (d & -> & [-> Hd]%list_elem_of_filter)%list_elem_of_fmap & Hin). eauto.
  - intros (user & Hin & Hd & <-). exists user. split; [|done].
    apply list_elem_of_fmap. exists district. split; [done|].
    by apply list_elem_of_filter.
Qed.

(** X1. The price index holds, under the key of a price range, the ids of
    exactly the users with that range, once each and in the order in which
    the users were filed; a range no user has is not a key. *)
Theorem price_index_groups_users_by_range (users : list Prefs.t) (key : string) :
  price_index (build_user_indexes users) !! key
  = match filed_under_key key users with
    | [] => None
    | user_ids => Some user_ids
    end.
Proof.
  unfold build_user_indexes. rewrite price_index_foldl. simpl.
  rewrite lookup_empty. by destruct (filed_under_key key users).
Qed.

(** X2. The district index holds, under a district, the id of every user
    that lists the district among its preferred districts, in the order of
    the users and once for every time the user lists it; a district no
    user lists is not a key. *)
Theorem district_index_lists_users_by_district (users : list Prefs.t) (district : string) :
  district_index (build_user_indexes users) !! district
  = match filed_under_district district users with
    | [] => None
    | user_ids => Some user_ids
    end.
Proof.
  unfold build_user_indexes. rewrite district_index_foldl. simpl.
  rewrite lookup_empty. by destruct (filed_under_district district users).
Qed.

Example district_listed_twice :
  district_index
    (build_user_indexes
       [preference_A;
        {| Prefs.user_id := 5;
           Prefs.price_min := Some 0; Prefs.price_max := Some 10;
           Prefs.ideal_price := None;
           Prefs.preferred_districts := ["Mitte"; "Spandau"; "Mitte"]%string;
           Prefs.top_preferred_districts := [];
           Prefs.acceptable_districts := [];
           Prefs.min_rooms := None; Prefs.max_rooms := None;
           Prefs.ideal_rooms := None; Prefs.min_size_sqm := None;
           Prefs.pet_friendly := None; Prefs.balcony_required := None;
           Prefs.furnished := None |}]) !! "Mitte"%string
  = Some [1; 5; 5].
Proof. reflexivity. Qed.

Lemma appended_None added :
  appended None added = match added with [] => None | _ => Some added end.
Proof. by destruct added. Qed.

Lemma price_index_lookup (users : list Prefs.t) (key : string) :
  price_index (build_user_indexes users) !! key = appended None (filed_under_key key users).
Proof. unfold build_user_indexes. by rewrite price_index_foldl. Qed.

Lemma district_index_lookup (users : list Prefs.t) (district : string) :
  district_index (build_user_indexes users) !! district
  = appended None (filed_under_district district users).
Proof. unfold build_user_indexes. by rewrite district_index_foldl. Qed.

(** ** Keys and candidate lookup *)

(** X3. Printing a user's price range as an index key and parsing the key
    back gives the two bounds exactly when both are set and neither is
    negative; in every other case the key does not parse. *)
Theorem price_key_round_trip (user : Prefs.t) (lo hi : Z) :
  parse_price_range (price_key user) = Some (lo, hi)
  ↔ Prefs.price_min user = Some lo ∧ Prefs.price_max user = Some hi
    ∧ 0 ≤ lo ∧ 0 ≤ hi.
Proof.
  rewrite parse_price_range_price_key.
  destruct (Prefs.price_min user) as [lo'|], (Prefs.price_max user) as [hi'|];
    try (split; [done|by intros (? & ? & _)]).
  case_decide as Hbounds.
  - split; [intros [= -> ->]; tauto|]. by intros ([= ->] & [= ->] & _).
  - split; [done|]. intros ([= ->] & [= ->] & Hlo & Hhi). tauto.
Qed.

(** Two users whose keys parse are filed under the same key exactly when
    their bounds are the same. *)
Lemma price_key_inj user user' :
  key_parses user → price_key user = price_key user' →
  Prefs.price_min user = Prefs.price_min user'
  ∧ Prefs.price_max user = Prefs.price_max user'.
Proof.
  intros (lo & hi & Hmin & Hmax & Hlo & Hhi) Hkey.
  assert (Hparse : parse_price_range (price_key user') = Some (lo, hi)).
  { rewrite <- Hkey, parse_price_range_price_key, Hmin, Hmax.
    by rewrite decide_True. }
  rewrite parse_price_range_price_key in Hparse.
  destruct (Prefs.price_min user'), (Prefs.price_max user'); try done.
  case_decide; [|done]. injection Hparse as -> ->. by rewrite Hmin, Hmax.
Qed.

(** X4. The candidate lookup raises exactly when some active user has a
    price bound that is unset or negative, and then for every listing
    alike. *)
Theorem candidate_lookup_raises_iff_some_key_does_not_parse
    (users : list Prefs.t) (listing : Listing.t) :
  get_candidate_users (build_user_indexes users) listing = None
  ↔ ∃ user, user ∈ users ∧ ¬ key_parses user.
Proof.
  split.
  - intros Hraises.
    destruct (decide (Forall (λ user, is_Some (parse_price_range (price_key user))) users))
      as [Hall|Hsome].
    + rewrite Forall_forall in Hall.
      destruct (get_candidate_users_superset any_location users listing)
        as (candidates & Hreturns & _); [|congruence].
      intros user Huser. by apply key_parses_iff, Hall.
    + apply not_Forall_Exists in Hsome; [|apply _].
      apply Exists_exists in Hsome as (user & Huser & Hbad).
      exists user. split; [done|]. by rewrite key_parses_iff.
  - intros (user & Huser & Hbad). by eapply get_candidate_users_raises.
Qed.

(** The loop over the price index, when every key parses, returns what it
    was given and the ids filed under the ranges that hold the price, and
    nothing else. *)
Lemma scan_price_index_exact price items candidate_users found user_id :
  scan_price_index price items candidate_users = Some found →
  user_id ∈ found
  ↔ user_id ∈ candidate_users
    ∨ ∃ price_range user_ids min_price max_price,
        (price_range, user_ids) ∈ items
        ∧ parse_price_range price_range = Some (min_price, max_price)
        ∧ min_price ≤ price ≤ max_price
        ∧ user_id ∈ user_ids.
Proof.
  revert candidate_users.
  induction items as [|[key ids] items IH]; intros candidate_users; simpl.
  - intros [= ->]. split; [by left|].
    intros [?|(? & ? & ? & ? & []%elem_of_nil & _)]; done.
  - destruct (parse_price_range key) as [[lo hi]|] eqn:Hkey; simpl; [|done].
    intros Hscan. rewrite (IH _ Hscan). clear IH Hscan. split.
    + intros [Hin|(k & l & a & b & Hitems & Hparse & Hprice & Hid)].
      * case_bool_decide as Hrange; [|by left].
        apply elem_of_union in Hin as [Hin|Hin%elem_of_list_to_set]; [by left|].
        right. exists key, ids, lo, hi. split; [left|done].
      * right. exists k, l, a, b. split; [by right|done].
    + intros [Hin|(k & l & a & b & Hitems & Hparse & Hprice & Hid)].
      * left. case_bool_decide; [|done]. apply elem_of_union. by left.
      * apply elem_of_cons in Hitems as [[= -> ->]|Hitems].
        -- left. rewrite Hkey in Hparse. injection Hparse as -> ->.
           rewrite bool_decide_eq_true_2 by done.
           apply elem_of_union. right. by apply elem_of_list_to_set.
        -- right. exists k, l, a, b. done.
Qed.

(** The ids the lookup returns are those of the users whose price range
    holds the listing's price or whose preferred districts hold the
    listing's district. *)
Lemma get_candidate_users_elem
    (users : list Prefs.t) (listing : Listing.t) (candidates : list Z) :
  get_candidate_users (build_user_indexes users) listing = Some candidates →
  NoDup candidates
  ∧ ∀ user_id,
      user_id ∈ candidates
      ↔ ∃ user, user ∈ users ∧ Prefs.user_id user = user_id
                ∧ (price_in_bounds (Listing.price listing) user
                   ∨ Listing.district listing ∈ Prefs.preferred_districts user).
Proof.
  unfold get_candidate_users.
  destruct (scan_price_index _ _ _) as [found|] eqn:Hscan; simpl; [|done].
  intros [= <-]. split; [apply NoDup_elements|].
  intros user_id. rewrite elem_of_elements.
  pose proof (scan_price_index_exact _ _ _ _ user_id Hscan) as Hfound.
  assert (Hprice : user_id ∈ found
                   ↔ ∃ user, user ∈ users ∧ Prefs.user_id user = user_id
                             ∧ price_in_bounds (Listing.price listing) user).
  { rewrite Hfound. split.
    - intros [[]%elem_of_empty|(k & ids & lo & hi & Hitem & Hparse & Hrange & Hid)].
      apply elem_of_map_to_list in Hitem.
      rewrite price_index_lookup in Hitem.
      destruct (filed_under_key k users) eqn:Hfiled; [done|].
      injection Hitem as <-. rewrite <- Hfiled in Hid.
      apply elem_of_filed_under_key in Hid as (user & Huser & <- & <-).
      exists user. split; [done|]. split; [done|].
      rewrite parse_price_range_price_key in Hparse.
      destruct (Prefs.price_min user) as [lo'|] eqn:Hmin,
               (Prefs.price_max user) as [hi'|] eqn:Hmax; try done.
      case_decide; [|done]. injection Hparse as -> ->.
      exists lo, hi. by rewrite Hmin, Hmax.
    - intros (user & Huser & <- & lo & hi & Hmin & Hmax & Hrange). right.
      destruct (parse_price_range (price_key user)) as [[a b]|] eqn:Hparse.
      + exists (price_key user), (filed_under_key (price_key user) users), a, b.
        assert (Hid : Prefs.user_id user ∈ filed_under_key (price_key user) users)
          by (apply elem_of_filed_under_key; eauto).
        split.
        { apply elem_of_map_to_list. rewrite price_index_lookup.
          destruct (filed_under_key _ _); [by apply elem_of_nil in Hid|done]. }
        split; [done|]. split; [|done].
        rewrite parse_price_range_price_key, Hmin, Hmax in Hparse.
        case_decide; [|done]. by injection Hparse as <- <-.
      + exfalso.
        assert (Hraises : scan_price_index (Listing.price listing)
                  (map_to_list (price_index (build_user_indexes users))) ∅ = None).
        { eapply (scan_price_index_raises _ _ _ (price_key user)
                    (filed_under_key (price_key user) users)); [|done].
          apply elem_of_map_to_list. rewrite price_index_lookup.
          assert (Hid : Prefs.user_id user ∈ filed_under_key (price_key user) users)
            by (apply elem_of_filed_under_key; eauto).
          destruct (filed_under_key _ _); [by apply elem_of_nil in Hid|done]. }
        congruence. }
  rewrite district_index_lookup, appended_None.
  destruct (filed_under_district (Listing.district listing) users) as [|id ids] eqn:Hfiled;
    cbv beta iota.
  - rewrite Hprice. split.
    + intros (user & ? & ? & ?). exists user. tauto.
    + intros (user & Huser & Hid & [Hin|Hdistrict]); [by exists user|].
      assert (Hlisted : user_id ∈ filed_under_district (Listing.district listing) users)
        by (apply elem_of_filed_under_district; eauto).
      rewrite Hfiled in Hlisted. by apply elem_of_nil in Hlisted.
  - rewrite elem_of_union, elem_of_list_to_set, <- Hfiled,
      elem_of_filed_under_district, Hprice. split.
    + intros [(user & ? & ? & ?)|(user & ? & ? & ?)]; exists user; tauto.
    + intros (user & Huser & Hid & [Hin|Hdistrict]); [left|right]; by exists user.
Qed.

(** X5. When the candidate lookup returns, it returns each id once, and
    the ids are exactly those of the users whose price range holds the
    listing's price or whose preferred districts hold the listing's
    district: either index alone makes a user a candidate. *)
Theorem candidates_are_price_or_district_matches
    (users : list Prefs.t) (listing : Listing.t) (candidates : list Z) :
  get_candidate_users (build_user_indexes users) listing = Some candidates →
  NoDup candidates
  ∧ ∀ user_id,
      user_id ∈ candidates
      ↔ ∃ user, user ∈ users ∧ Prefs.user_id user = user_id
                ∧ (price_in_bounds (Listing.price listing) user
                   ∨ Listing.district listing ∈ Prefs.preferred_districts user).
Proof. apply get_candidate_users_elem. Qed.

Lemma candidates_are_price_or_district_matches_witness :
  NoDup [1]
  ∧ ∀ user_id,
      user_id ∈ [1]
      ↔ ∃ user, user ∈ [preference_A; preference_B] ∧ Prefs.user_id user = user_id
                ∧ (price_in_bounds (Listing.price listing_mitte) user
                   ∨ Listing.district listing_mitte ∈ Prefs.preferred_districts user).
Proof.
  apply (candidates_are_price_or_district_matches
           [preference_A; preference_B] listing_mitte [1]).
  reflexivity.
Defined.

Lemma get_candidate_users_returns_parses users listing candidates user :
  get_candidate_users (build_user_indexes users) listing = Some candidates →
  user ∈ users → key_parses user.
Proof.
  intros Hreturns Huser. apply key_parses_iff.
  destruct (parse_price_range (price_key user)) eqn:Hparse; [done|].
  rewrite (get_candidate_users_raises users listing user) in Hreturns; [done|done|].
  rewrite key_parses_iff, Hparse. by intros [? [=]].
Qed.

(** X6. Let the price check of the engine accept a price only when it lies
    within the two bounds, and let the dictionary of preferences be keyed
    by the user ids.  Then, whenever the candidate lookup over the same
    preferences returns, every user that [find_matching_users] reports for
    a listing is among the candidates for it. *)
Theorem every_match_is_a_candidate
    (self : UserPreferenceEngine) (listing : Listing.t)
    (user_preferences : list (Z * Prefs.t)) (candidates : list Z) (m : Match) :
  (∀ price lo hi,
     price_in_range self price (Some lo) (Some hi) = true → lo ≤ price ≤ hi) →
  (∀ user_id preferences,
     (user_id, preferences) ∈ user_preferences → Prefs.user_id preferences = user_id) →
  get_candidate_users (build_user_indexes user_preferences.*2) listing = Some candidates →
  m ∈ find_matching_users self listing user_preferences →
  match_user_id m ∈ candidates.
Proof.
  intros Hprice Hkeyed Hreturns Hm.
  apply find_matching_users_entries in Hm as (Hin & Hmatch & _).
  assert (Huser : match_preferences m ∈ user_preferences.*2).
  { apply list_elem_of_fmap. by exists (match_user_id m, match_preferences m). }
  destruct (get_candidate_users_returns_parses _ _ _ _ Hreturns Huser)
    as (lo & hi & Hmin & Hmax & _).
  apply (get_candidate_users_elem _ _ _ Hreturns).
  exists (match_preferences m). split; [done|]. split; [by apply Hkeyed|].
  left. exists lo, hi. split; [done|]. split; [done|].
  apply Hprice. rewrite <- Hmin, <- Hmax.
  by apply listing_matches_preferences_price.
Qed.

Lemma every_match_is_a_candidate_witness :
  match_user_id
    {| match_user_id := 1; match_preferences := preference_A;
       match_score :=
         calculate_match_score (spec_engine location_is_preferred)
           listing_mitte preference_A |}
  ∈ [1].
Proof.
  apply (every_match_is_a_candidate (spec_engine location_is_preferred) listing_mitte
           [(1, preference_A); (2, preference_B)] [1]).
  - intros price lo hi. apply price_in_range_bounds.
  - intros user_id preferences Hin.
    apply elem_of_cons in Hin as [[= -> ->]|Hin]; [reflexivity|].
    apply elem_of_cons in Hin as [[= -> ->]|Hin]; [reflexivity|].
    by apply elem_of_nil in Hin.
  - reflexivity.
  - left.
Defined.

(** ** The blocks of [calculate_match_score] *)

(** The price block for an ideal price that is set and not 0. *)
Lemma add_price_preference_set listing preferences score ideal_price :
  Prefs.ideal_price preferences = Some ideal_price → ideal_price ≠ 0 →
  add_price_preference listing preferences score
  = (score
     + Qmax 0 (100 - (inject_Z (Z.abs (Listing.price listing - ideal_price))
                      / inject_Z ideal_price * 100)) * (3 # 10))%Q.
Proof.
  intros Hideal Hnonzero. unfold add_price_preference. rewrite Hideal. simpl.
  by rewrite decide_False.
Qed.

(** The quotient [price_diff / ideal_price] against 1, for a positive
    ideal price. *)
Lemma quotient_le_iff (price_diff ideal_price : Z) (bound : Q) :
  0 < ideal_price →
  (inject_Z price_diff / inject_Z ideal_price <= bound)%Q
  ↔ (inject_Z price_diff <= bound * inject_Z ideal_price)%Q.
Proof.
  intros Hpos.
  assert (Hideal : (0 < inject_Z ideal_price)%Q)
    by (change 0%Q with (inject_Z 0); by rewrite <- Zlt_Qlt).
  split.
  - intros Hle.
    assert (Heq : (inject_Z price_diff / inject_Z ideal_price * inject_Z ideal_price
                   == inject_Z price_diff)%Q) by (field; lra).
    rewrite <- Heq. apply Qmult_le_compat_r; [exact Hle|lra].
  - intros Hle. by apply Qle_shift_div_r.
Qed.

Lemma quotient_ge_iff (price_diff ideal_price : Z) (bound : Q) :
  0 < ideal_price →
  (bound <= inject_Z price_diff / inject_Z ideal_price)%Q
  ↔ (bound * inject_Z ideal_price <= inject_Z price_diff)%Q.
Proof.
  intros Hpos.
  assert (Hideal : (0 < inject_Z ideal_price)%Q)
    by (change 0%Q with (inject_Z 0); by rewrite <- Zlt_Qlt).
  split.
  - intros Hle.
    assert (Heq : (inject_Z price_diff / inject_Z ideal_price * inject_Z ideal_price
                   == inject_Z price_diff)%Q) by (field; lra).
    rewrite <- Heq. apply Qmult_le_compat_r; [exact Hle|lra].
  - intros Hle. by apply Qle_shift_div_l.
Qed.

(** For a positive ideal price the quotient is not negative. *)
Lemma quotient_nonneg (price_diff ideal_price : Z) :
  0 ≤ price_diff → 0 < ideal_price →
  (0 <= inject_Z price_diff / inject_Z ideal_price)%Q.
Proof.
  intros Hdiff Hpos. apply Qle_shift_div_l.
  - change 0%Q with (inject_Z 0). by rewrite <- Zlt_Qlt.
  - rewrite Qmult_0_l. change 0%Q with (inject_Z 0). by rewrite <- Zle_Qle.
Qed.

(** X8. For a listing price and a positive ideal price that are values of
    the database's integer columns, the price block, which runs on the
    score 0, gives between 0 and 30 points: exactly 30 when the listing's
    price is the ideal price and only then, and nothing when the price is 0
    or less, or twice the ideal price or more, and only then. *)
Theorem price_block_for_positive_ideal_price
    (listing : Listing.t) (preferences : Prefs.t) (ideal_price : Z) :
  Prefs.ideal_price preferences = Some ideal_price → 0 < ideal_price →
  is_int32 ideal_price → is_int32 (Listing.price listing) →
  let added := add_price_preference listing preferences 0 in
  (0 <= added <= 30)%Q
  ∧ ((added == 30)%Q ↔ Listing.price listing = ideal_price)
  ∧ ((added == 0)%Q
     ↔ Listing.price listing ≤ 0 ∨ 2 * ideal_price ≤ Listing.price listing).
Proof.
  intros Hideal Hpos _ _ added. unfold added.
  rewrite (add_price_preference_set _ _ _ ideal_price) by (done || lia).
  set (price_diff := Z.abs (Listing.price listing - ideal_price)).
  set (quotient := (inject_Z price_diff / inject_Z ideal_price)%Q).
  assert (Hdiff : 0 ≤ price_diff) by apply Z.abs_nonneg.
  assert (Hquotient : (0 <= quotient)%Q) by by apply quotient_nonneg.
  assert (Hone : (1 <= quotient)%Q ↔ ideal_price ≤ price_diff).
  { unfold quotient. rewrite quotient_ge_iff by done.
    rewrite Qmult_1_l. by rewrite <- Zle_Qle. }
  assert (Hzero : (quotient <= 0)%Q ↔ price_diff ≤ 0).
  { unfold quotient. rewrite quotient_le_iff by done.
    rewrite Qmult_0_l. change 0%Q with (inject_Z 0). by rewrite <- Zle_Qle. }
  assert (Hsame : (quotient <= 0)%Q ↔ Listing.price listing = ideal_price)
    by (rewrite Hzero; unfold price_diff; lia).
  assert (Hfar : (1 <= quotient)%Q
                 ↔ Listing.price listing ≤ 0 ∨ 2 * ideal_price ≤ Listing.price listing)
    by (rewrite Hone; unfold price_diff; lia).
  destruct (Q.max_spec 0 (100 - quotient * 100)) as [[Hlt Hmax]|[Hle Hmax]];
    rewrite Hmax.
  - split; [lra|]. split.
    + rewrite <- Hsame. split; intros ?; lra.
    + rewrite <- Hfar. split; intros ?; lra.
  - split; [lra|]. split.
    + rewrite <- Hsame. split; intros ?; lra.
    + rewrite <- Hfar. split; intros ?; lra.
Qed.

Lemma price_block_for_positive_ideal_price_witness :
  let added := add_price_preference listing_mitte preference_A 0 in
  (0 <= added <= 30)%Q
  ∧ ((added == 30)%Q ↔ Listing.price listing_mitte = 1000)
  ∧ ((added == 0)%Q
     ↔ Listing.price listing_mitte ≤ 0 ∨ 2 * 1000 ≤ Listing.price listing_mitte).
Proof.
  apply (price_block_for_positive_ideal_price listing_mitte preference_A 1000).
  - reflexivity.
  - lia.
  - unfold is_int32. lia.
  - unfold is_int32. simpl. lia.
Defined.

(** X9. For a positive ideal price, a listing whose price is at least as
    close to the ideal price gets at least as many price points: closer to
    ideal means a score that is higher or the same. *)
Theorem closer_price_scores_no_lower
    (listing listing' : Listing.t) (preferences : Prefs.t) (score : Q) (ideal_price : Z) :
  Prefs.ideal_price preferences = Some ideal_price → 0 < ideal_price →
  Z.abs (Listing.price listing - ideal_price)
  ≤ Z.abs (Listing.price listing' - ideal_price) →
  (add_price_preference listing' preferences score
   <= add_price_preference listing preferences score)%Q.
Proof.
  intros Hideal Hpos Hcloser.
  rewrite !(add_price_preference_set _ _ _ ideal_price) by (done || lia).
  set (near := Z.abs (Listing.price listing - ideal_price)) in *.
  set (far := Z.abs (Listing.price listing' - ideal_price)) in *.
  assert (Hquotient : (inject_Z near / inject_Z ideal_price
                       <= inject_Z far / inject_Z ideal_price)%Q).
  { apply Qmult_le_compat_r; [by rewrite <- Zle_Qle|].
    apply Qinv_le_0_compat. change 0%Q with (inject_Z 0).
    rewrite <- Zle_Qle. lia. }
  assert (Hmax : (Qmax 0 (100 - inject_Z far / inject_Z ideal_price * 100)
                  <= Qmax 0 (100 - inject_Z near / inject_Z ideal_price * 100))%Q)
    by (apply Q.max_le_compat_l; lra).
  lra.
Qed.

Lemma closer_price_scores_no_lower_witness :
  (add_price_preference listing_mitte_repriced preference_A 0
   <= add_price_preference listing_mitte preference_A 0)%Q.
Proof.
  apply (closer_price_scores_no_lower listing_mitte listing_mitte_repriced
           preference_A 0 1000).
  - reflexivity.
  - lia.
  - simpl. lia.
Defined.

(** X10. A negative ideal price is taken as set: whatever the listing's
    price, the price block then adds 30 points or more. *)
Theorem negative_ideal_price_adds_30_or_more
    (listing : Listing.t) (preferences : Prefs.t) (score : Q) (ideal_price : Z) :
  Prefs.ideal_price preferences = Some ideal_price → ideal_price < 0 →
  (score + 30 <= add_price_preference listing preferences score)%Q.
Proof.
  intros Hideal Hneg.
  rewrite (add_price_preference_set _ _ _ ideal_price) by (done || lia).
  set (price_diff := Z.abs (Listing.price listing - ideal_price)).
  assert (Hopposite : (0 <= inject_Z price_diff / inject_Z (- ideal_price))%Q)
    by (apply quotient_nonneg; [apply Z.abs_nonneg|lia]).
  assert (Hideal_neg : (inject_Z ideal_price < 0)%Q)
    by (change 0%Q with (inject_Z 0); by rewrite <- Zlt_Qlt).
  assert (Hquotient : (inject_Z price_diff / inject_Z ideal_price
                       == - (inject_Z price_diff / inject_Z (- ideal_price)))%Q).
  { rewrite inject_Z_opp. field. lra. }
  assert (Hmax : (100 - inject_Z price_diff / inject_Z ideal_price * 100
                  <= Qmax 0 (100 - inject_Z price_diff / inject_Z ideal_price * 100))%Q)
    by apply Q.le_max_r.
  lra.
Qed.

Lemma negative_ideal_price_adds_30_or_more_witness :
  (0 + 30 <= add_price_preference listing_mitte preference_negative_ideal 0)%Q.
Proof.
  apply (negative_ideal_price_adds_30_or_more
           listing_mitte preference_negative_ideal 0 (-1000)).
  - reflexivity.
  - lia.
Defined.

Example negative_ideal_price_scores_90 :
  (add_price_preference listing_mitte preference_negative_ideal 0 == 90)%Q.
Proof. reflexivity. Qed.

Lemma truthy_Some x n : Py.truthy x = Some n → x = Some n ∧ n ≠ 0.
Proof.
  unfold Py.truthy. destruct x as [m|]; [|done].
  case_decide; [done|]. by intros [= <-].
Qed.

(** X11. The division of the price block never raises
    [ZeroDivisionError]: it is reached only when the ideal price is not 0,
    and the block computed with Python's division is the block computed
    above. *)
Theorem price_block_never_divides_by_zero
    (listing : Listing.t) (preferences : Prefs.t) (score : Q) :
  add_price_preference_checked listing preferences score
  = Some (add_price_preference listing preferences score).
Proof.
  unfold add_price_preference_checked, add_price_preference.
  destruct (Py.truthy (Prefs.ideal_price preferences)) as [ideal_price|] eqn:Htruthy;
    [|done].
  apply truthy_Some in Htruthy as [_ Hnonzero].
  unfold truediv. by rewrite decide_False.
Qed.

Example truediv_by_zero : truediv 100 0 = None.
Proof. reflexivity. Qed.

(** X12. When the ideal price is unset or not negative, the price, district
    and room blocks together add at most 80 points, so the score is at most
    80 plus 5 per amenity match the engine counts: it reaches 100 only with
    four amenity matches or more. *)
Theorem score_is_at_most_80_plus_amenities
    (self : UserPreferenceEngine) (listing : Listing.t) (preferences : Prefs.t) :
  (∀ ideal_price, Prefs.ideal_price preferences = Some ideal_price → 0 ≤ ideal_price) →
  (calculate_match_score self listing preferences
   <= 80 + 5 * inject_Z (Z.of_nat (count_amenity_matches self listing preferences)))%Q.
Proof.
  intros Hideal. unfold calculate_match_score. cbv zeta.
  eapply Qle_trans; [apply Q.le_min_r|]. rewrite add_amenities_eq.
  assert (Hprice : (add_price_preference listing preferences 0 <= 30)%Q).
  { unfold add_price_preference.
    destruct (Py.truthy _) as [ideal_price|] eqn:Htruthy; [|lra].
    apply truthy_Some in Htruthy as [Hset Hnonzero].
    specialize (Hideal _ Hset). cbv zeta.
    pose proof (quotient_nonneg (Z.abs (Listing.price listing - ideal_price)) ideal_price
                  (Z.abs_nonneg _) ltac:(lia)) as Hquotient.
    assert (Hmax : (Qmax 0 (100 - inject_Z (Z.abs (Listing.price listing - ideal_price))
                                  / inject_Z ideal_price * 100) <= 100)%Q)
      by (apply Q.max_lub; lra).
    lra. }
  set (after_price := add_price_preference listing preferences 0) in *.
  assert (Hdistrict : (add_location_preference listing preferences after_price
                       <= after_price + 30)%Q).
  { unfold add_location_preference. repeat case_bool_decide; lra. }
  set (after_district := add_location_preference listing preferences after_price) in *.
  assert (Hrooms : (add_size_preference listing preferences after_district
                    <= after_district + 20)%Q).
  { unfold add_size_preference.
    destruct (Py.truthy _); [destruct (Qeq_bool _ _)|]; lra. }
  lra.
Qed.

Lemma score_is_at_most_80_plus_amenities_witness :
  (calculate_match_score (spec_engine any_location) listing_mitte preference_A
   <= 80 + 5 * inject_Z (Z.of_nat
                  (count_amenity_matches (spec_engine any_location)
                     listing_mitte preference_A)))%Q.
Proof.
  apply (score_is_at_most_80_plus_amenities
           (spec_engine any_location) listing_mitte preference_A).
  intros ideal_price Hideal. injection Hideal as <-. lia.
Defined.

(** ** [notify_user_of_match] *)

Ltac solve_sublist :=
  solve [repeat first [apply sublist_nil | apply sublist_skip | apply sublist_cons]].

(** X13. Whatever the channel set holds (a channel named twice, unknown
    channel names, any order), [notify_user_of_match] makes each of its four
    calls at most once and in the fixed order email, push, SMS, automatic
    application. *)
Theorem notify_makes_each_call_at_most_once_in_order
    (user : User.t) (match_score : Q) :
  notify_user_of_match user match_score `sublist_of` all_intents.
Proof.
  unfold notify_user_of_match, all_intents. cbv zeta.
  destruct (bool_decide ("email"%string ∈ _)), (bool_decide ("push"%string ∈ _)),
    (bool_decide ("sms"%string ∈ _) && _), (User.auto_apply_enabled user && _);
    simpl; solve_sublist.
Qed.

Example repeated_channels_at_90 :
  notify_user_of_match repeated_channels_user 90 = all_intents.
Proof. reflexivity. Qed.

(** X14. A higher score never triggers fewer calls: the calls made for a
    score are among the calls made for any score at least as high, in the
    same order. *)
Theorem higher_score_keeps_every_call
    (user : User.t) (match_score match_score' : Q) :
  (match_score <= match_score')%Q →
  notify_user_of_match user match_score
    `sublist_of` notify_user_of_match user match_score'.
Proof.
  intros Hle. unfold notify_user_of_match. cbv zeta.
  assert (Hsms : Qle_bool match_score 80 = false → Qle_bool match_score' 80 = false).
  { rewrite !Qle_bool_false_iff. intros Hlt. by eapply Qlt_le_trans. }
  assert (Happly : Qle_bool (inject_Z (User.auto_apply_threshold user)) match_score = true
                   → Qle_bool (inject_Z (User.auto_apply_threshold user)) match_score' = true).
  { rewrite !Qle_bool_iff. intros Hreached. by eapply Qle_trans. }
  destruct (Qle_bool match_score 80);
    destruct (Qle_bool match_score' 80); try (by discriminate Hsms);
    destruct (Qle_bool (inject_Z _) match_score);
    destruct (Qle_bool (inject_Z _) match_score'); try (by discriminate Happly);
    destruct (bool_decide ("email"%string ∈ _)), (bool_decide ("push"%string ∈ _)),
      (bool_decide ("sms"%string ∈ _)), (User.auto_apply_enabled user);
    simpl; solve_sublist.
Qed.

Lemma higher_score_keeps_every_call_witness :
  notify_user_of_match repeated_channels_user 70
    `sublist_of` notify_user_of_match repeated_channels_user 90.
Proof.
  apply (higher_score_keeps_every_call repeated_channels_user 70 90).
  intros H. discriminate H.
Defined.

(** X15. For a user with automatic application switched off, no score and
    no threshold ever triggers an application; the notifications are those
    of the same user with it switched on. *)
Theorem no_application_when_auto_apply_is_off (user : User.t) (match_score : Q) :
  User.auto_apply_enabled user = false →
  (trigger_auto_application ∉ notify_user_of_match user match_score)
  ∧ notify_user_of_match user match_score
    = filter (λ intent, is_notification intent = true)
        (notify_user_of_match
           {| User.id := User.id user;
              User.notification_methods := User.notification_methods user;
              User.auto_apply_enabled := true;
              User.auto_apply_threshold := User.auto_apply_threshold user |}
           match_score).
Proof.
  intros Hoff. split.
  - rewrite notify_user_of_match_elem, Hoff. by intros [? _].
  - unfold notify_user_of_match. cbv zeta. rewrite Hoff. simpl.
    destruct (bool_decide ("email"%string ∈ _)), (bool_decide ("push"%string ∈ _)),
      (bool_decide ("sms"%string ∈ _) && _), (Qle_bool (inject_Z _) match_score);
      reflexivity.
Qed.

Lemma no_application_when_auto_apply_is_off_witness :
  (trigger_auto_application ∉ notify_user_of_match all_channels_user 95)
  ∧ notify_user_of_match all_channels_user 95
    = filter (λ intent, is_notification intent = true)
        (notify_user_of_match
           {| User.id := User.id all_channels_user;
              User.notification_methods := User.notification_methods all_channels_user;
              User.auto_apply_enabled := true;
              User.auto_apply_threshold := User.auto_apply_threshold all_channels_user |}
           95).
Proof.
  apply (no_application_when_auto_apply_is_off all_channels_user 95).
  reflexivity.
Defined.

(** ** The Redis caches *)

Lemma redis_get_setex now now' key key' seconds value redis :
  redis_get now' (redis_setex now key seconds value redis) key'
  = if decide (key = key')
    then if decide (now' < now + seconds) then Some value else None
    else redis_get now' redis key'.
Proof.
  unfold redis_get, redis_setex. rewrite lookup_insert.
  by case_decide.
Qed.

Section UserManagerFacts.

Context {Preferences : Type}.
Variable dumps : Preferences → string.
Variable loads : string → Preferences.

(** X16. A call that finds nothing cached returns the preferences of the
    database and caches their text.  If that text is not empty, every call
    in the 300 seconds that follow returns the cached preferences, whatever
    the database holds by then, and leaves the cache as it is; a call after
    300 seconds or more returns the preferences of the database again. *)
Theorem cached_preferences_are_served_for_300_seconds
    (now : Z) (db_prefs : Preferences) (cache : gmap string (string * Z)) :
  redis_get now cache "active_user_preferences" = None →
  dumps db_prefs ≠ EmptyString →
  let first := get_active_user_preferences dumps loads now db_prefs cache in
  first.1 = db_prefs
  ∧ (∀ later db_prefs',
       now ≤ later < now + 300 →
       get_active_user_preferences dumps loads later db_prefs' first.2
       = (loads (dumps db_prefs), first.2))
  ∧ (∀ later db_prefs',
       now + 300 ≤ later →
       (get_active_user_preferences dumps loads later db_prefs' first.2).1 = db_prefs').
Proof.
  intros Hmiss Hnonempty first.
  assert (Hfirst : first
                   = (db_prefs,
                      redis_setex now "active_user_preferences" 300 (dumps db_prefs) cache)).
  { unfold first, get_active_user_preferences. by rewrite Hmiss. }
  rewrite Hfirst. simpl. split; [done|]. split.
  - intros later db_prefs' [_ Hlive].
    unfold get_active_user_preferences.
    rewrite redis_get_setex, decide_True by done.
    rewrite decide_True by done. by rewrite decide_False.
  - intros later db_prefs' Hexpired.
    unfold get_active_user_preferences.
    rewrite redis_get_setex, decide_True by done.
    rewrite decide_False by lia. done.
Qed.

End UserManagerFacts.

(** With the preferences as their own text: served from the cache at
    second 299, read from the database again at second 300. *)
Example cached_preferences_at_299_and_300 :
  let first := get_active_user_preferences id id 1000 "A" ∅ in
  get_active_user_preferences id id 1299 "B" first.2 = ("A"%string, first.2)
  ∧ (get_active_user_preferences id id 1300 "B" first.2).1 = "B"%string.
Proof. split; reflexivity. Qed.

Lemma cached_preferences_are_served_for_300_seconds_witness :
  let first := get_active_user_preferences id id 1000 "A"%string ∅ in
  first.1 = "A"%string
  ∧ (∀ later db_prefs',
       1000 ≤ later < 1000 + 300 →
       get_active_user_preferences id id later db_prefs' first.2
       = (id (id "A"%string), first.2))
  ∧ (∀ later db_prefs',
       1000 + 300 ≤ later →
       (get_active_user_preferences id id later db_prefs' first.2).1 = db_prefs').
Proof.
  apply (cached_preferences_are_served_for_300_seconds id id 1000 "A"%string ∅).
  - reflexivity.
  - discriminate.
Defined.

Lemma str_int_inj n m : Py.str_int n = Py.str_int m → n = m.
Proof.
  intros Hstr. apply (f_equal Py.int) in Hstr.
  rewrite !int_str_int in Hstr. by injection Hstr.
Qed.

Lemma user_prefs_key_inj user user' :
  user_prefs_key user = user_prefs_key user' → Prefs.user_id user = Prefs.user_id user'.
Proof.
  unfold user_prefs_key. simpl. intros [= Hstr]. by apply str_int_inj.
Qed.

Lemma user_prefs_key_not_aggregated user :
  user_prefs_key user ≠ "aggregated_prefs"%string.
Proof. unfold user_prefs_key. simpl. discriminate. Qed.

Lemma user_prefs_key_not_active user :
  user_prefs_key user ≠ "active_user_preferences"%string.
Proof. unfold user_prefs_key. simpl. discriminate. Qed.

Section MatchingCacheFacts.

Context {Aggregated : Type}.
Variable dumps_user : Prefs.t → string.
Variable aggregate_preferences : list Prefs.t → Aggregated.
Variable dumps_aggregated : Aggregated → string.

(** The loop of [cache_user_preferences]. *)
Lemma cache_users_lookup_other now users redis key :
  (∀ user, user ∈ users → user_prefs_key user ≠ key) →
  foldl (λ redis user,
           redis_setex now (user_prefs_key user) user_prefs_cache_ttl
             (dumps_user user) redis) redis users !! key
  = redis !! key.
Proof.
  revert redis.
  induction users as [|first users IH]; intros redis Hother; [done|].
  simpl. rewrite IH by (intros user Hin; apply Hother; by right).
  unfold redis_setex. apply lookup_insert_ne, Hother. left.
Qed.

Lemma cache_users_lookup now users redis user :
  NoDup (Prefs.user_id <$> users) → user ∈ users →
  foldl (λ redis user,
           redis_setex now (user_prefs_key user) user_prefs_cache_ttl
             (dumps_user user) redis) redis users !! user_prefs_key user
  = Some (dumps_user user, now + user_prefs_cache_ttl).
Proof.
  revert redis.
  induction users as [|first users IH]; intros redis Hnodup; [by intros ?%elem_of_nil|].
  rewrite fmap_cons in Hnodup. apply NoDup_cons in Hnodup as [Hfresh Hnodup].
  simpl. intros [->|Hin]%elem_of_cons; [|by apply IH].
  rewrite cache_users_lookup_other.
  - unfold redis_setex. apply lookup_insert_eq.
  - intros user Hin Hkey. apply Hfresh.
    apply user_prefs_key_inj in Hkey. rewrite <- Hkey.
    apply list_elem_of_fmap. by exists user.
Qed.

(** X17. [MatchingCache.cache_user_preferences] writes under the keys
    [user_prefs:<id>] and [aggregated_prefs] only: every other key of the
    store is left as it is, and what
    [UserManager.get_active_user_preferences] returns is the same before
    and after. *)
Theorem matching_cache_leaves_active_preferences_alone
    {Preferences : Type} (dumps : Preferences → string) (loads : string → Preferences)
    (now later : Z) (users : list Prefs.t) (db_prefs : Preferences)
    (redis : gmap string (string * Z)) :
  let refreshed :=
    cache_user_preferences dumps_user aggregate_preferences dumps_aggregated
      now users redis in
  (∀ key,
     key ≠ "aggregated_prefs"%string →
     (∀ user, user ∈ users → user_prefs_key user ≠ key) →
     refreshed !! key = redis !! key)
  ∧ (get_active_user_preferences dumps loads later db_prefs refreshed).1
    = (get_active_user_preferences dumps loads later db_prefs redis).1.
Proof.
  intros refreshed.
  assert (Hother : ∀ key,
            key ≠ "aggregated_prefs"%string →
            (∀ user, user ∈ users → user_prefs_key user ≠ key) →
            refreshed !! key = redis !! key).
  { intros key Haggregated Husers. unfold refreshed, cache_user_preferences. cbv zeta.
    unfold redis_setex at 1. rewrite lookup_insert_ne by done.
    by apply cache_users_lookup_other. }
  split; [exact Hother|].
  unfold get_active_user_preferences, redis_get.
  rewrite Hother; [|done|intros user _; apply user_prefs_key_not_active].
  destruct (redis !! _) as [[value expires_at]|]; [|done].
  case_decide; [|done]. by case_decide.
Qed.

(** X18. After [cache_user_preferences] over users with distinct ids, and
    for 300 seconds from then, the entry of each user holds that user's
    text and [aggregated_prefs] holds the text of the aggregate; from 300
    seconds on both are gone. *)
Theorem matching_cache_holds_each_user_for_300_seconds
    (now later : Z) (users : list Prefs.t) (redis : gmap string (string * Z))
    (user : Prefs.t) :
  NoDup (Prefs.user_id <$> users) → user ∈ users →
  let refreshed :=
    cache_user_preferences dumps_user aggregate_preferences dumps_aggregated
      now users redis in
  (now ≤ later < now + 300 →
   redis_get later refreshed (user_prefs_key user) = Some (dumps_user user)
   ∧ redis_get later refreshed "aggregated_prefs"
     = Some (dumps_aggregated (aggregate_preferences users)))
  ∧ (now + 300 ≤ later →
     redis_get later refreshed (user_prefs_key user) = None
     ∧ redis_get later refreshed "aggregated_prefs" = None).
Proof.
  intros Hnodup Huser refreshed.
  assert (Hentry : refreshed !! user_prefs_key user = Some (dumps_user user, now + 300)).
  { unfold refreshed, cache_user_preferences. cbv zeta.
    unfold redis_setex at 1.
    rewrite lookup_insert_ne by (apply not_eq_sym, user_prefs_key_not_aggregated).
    by apply cache_users_lookup. }
  assert (Haggregated : refreshed !! "aggregated_prefs"%string
                        = Some (dumps_aggregated (aggregate_preferences users), now + 300)).
  { unfold refreshed, cache_user_preferences. cbv zeta.
    unfold redis_setex at 1. apply lookup_insert_eq. }
  unfold redis_get. rewrite Hentry, Haggregated. split.
  - intros [_ Hlive]. by rewrite !decide_True.
  - intros Hexpired. by rewrite !decide_False by lia.
Qed.

End MatchingCacheFacts.

Lemma matching_cache_holds_each_user_for_300_seconds_witness :
  let refreshed :=
    cache_user_preferences price_key (λ users, length users) (λ n, "n"%string)
      1000 [preference_A; preference_B] ∅ in
  (1000 ≤ 1100 < 1000 + 300 →
   redis_get 1100 refreshed (user_prefs_key preference_B) = Some (price_key preference_B)
   ∧ redis_get 1100 refreshed "aggregated_prefs"
     = Some ((λ n : nat, "n"%string) ((λ users : list Prefs.t, length users)
               [preference_A; preference_B])))
  ∧ (1000 + 300 ≤ 1100 →
     redis_get 1100 refreshed (user_prefs_key preference_B) = None
     ∧ redis_get 1100 refreshed "aggregated_prefs" = None).
Proof.
  apply (matching_cache_holds_each_user_for_300_seconds
           price_key (λ users, length users) (λ n, "n"%string)
           1000 1100 [preference_A; preference_B] ∅ preference_B).
  - apply (bool_decide_unpack _). reflexivity.
  - right. left.
Defined.

Example matching_cache_keys :
  dom (cache_user_preferences price_key (λ users, length users) (λ n, "n"%string)
         1000 [preference_A; preference_B] ∅)
  = {[ "user_prefs:1"; "user_prefs:2"; "aggregated_prefs" ]}%string.
Proof. apply (bool_decide_unpack _). reflexivity. Qed.
